(** * RaiSQL_Notes / ExpoSQLite_Tutorial: the item form controller

    A shallow embedding of [app/index.tsx] (the [App] component: form state,
    list state, edit-mode flag and the handlers [loadItems], [saveItem],
    [saveOrUpdate], [startEdit], [confirmDelete]) together with the parts of
    the JavaScript runtime the handlers rely on ([String.prototype.trim],
    [parseInt], [Number.isNaN], [String(number)]).

    Conventions.
    - A JavaScript string is its sequence of UTF-16 code units ([list N]).
    - The numbers the controller meets are those [parseInt] returns: NaN,
      an infinity, or an integer-valued double, identified with the integer
      it holds ([Z]; the two zeros are not told apart).  [String] prints
      the shortest digits that read back, in exponent notation from 10^21
      on, as the language does.
    - [parseInt] of a digit string is the integer itself when that is a
      safe integer (at most 2^53 - 1 in absolute value), on every engine.
      Beyond the safe integers [JS.parseInt] takes the double nearest to
      the integer read; an engine that accumulates the digits in floating
      point (Hermes) may return a neighbouring double there, and the
      language allows it.  What is proved about the value sent to the
      store is therefore stated for safe integers, or for texts so long
      (10^309 and more) that every engine overflows to Infinity.
    - An [async] handler is a function from the world (store, component
      state, event trace) to an outcome and a new world.  Handlers run to
      completion one at a time, as section 5 of the specification assumes.
    - The controller is written against the interface it imports from
      [data/db] ([ItemStore]); the store that section 4.1 of the
      specification describes is one instance of it ([SpecStore]). *)

From Stdlib Require Import ZArith NArith List Bool String Ascii Lia.
Import ListNotations.

(* ================================================================== *)
(** ** The JavaScript fragment used by the controller *)
(* ================================================================== *)

Module JS.

Definition code_unit := N.
Definition jsstring := list code_unit.

(** A literal: every character of the Rocq string is one code unit. *)
Definition js (s : string) : jsstring :=
  map N_of_ascii (list_ascii_of_string s).

(** NaN, plus or minus infinity, or an integer-valued number. *)
Inductive number : Type :=
| NaN
| Infinity (negative : bool)
| Num (z : Z).

Definition Number_isNaN (x : number) : bool :=
  match x with NaN => true | _ => false end.

Definition MAX_SAFE_INTEGER : Z := 2 ^ 53 - 1.

Definition safe_integer (x : number) : Prop :=
  match x with
  | Num z => (- MAX_SAFE_INTEGER <= z <= MAX_SAFE_INTEGER)%Z
  | _ => False
  end.

(** The Number value of a mathematical integer: the nearest binary64
    double, ties to the even significand, infinity from 2^1024 on. *)
Definition F (z : Z) : number :=
  let m := Z.abs z in
  if (m <? 2 ^ 53)%Z then Num z
  else
    let e := (Z.log2 m - 52)%Z in
    let q := (m / 2 ^ e)%Z in
    let r := (m mod 2 ^ e)%Z in
    let half := (2 ^ (e - 1))%Z in
    let q' :=
      if (r <? half)%Z then q
      else if (half <? r)%Z then (q + 1)%Z
      else if Z.even q then q else (q + 1)%Z in
    let v := (q' * 2 ^ e)%Z in
    if (v <? 2 ^ 1024)%Z then Num (Z.sgn z * v) else Infinity (z <? 0)%Z.

(** ECMA-262 WhiteSpace and LineTerminator code points, the set that
    [trim] and [parseInt] strip. *)
Definition is_white_space (c : code_unit) : bool :=
  ((c =? 0x9) || (c =? 0xA) || (c =? 0xB) || (c =? 0xC) || (c =? 0xD)
   || (c =? 0x20) || (c =? 0xA0) || (c =? 0x1680)
   || ((0x2000 <=? c) && (c <=? 0x200A))
   || (c =? 0x2028) || (c =? 0x2029) || (c =? 0x202F) || (c =? 0x205F)
   || (c =? 0x3000) || (c =? 0xFEFF))%N.

Fixpoint trimStart (s : jsstring) : jsstring :=
  match s with
  | [] => []
  | c :: s' => if is_white_space c then trimStart s' else s
  end.

Fixpoint trimEnd (s : jsstring) : jsstring :=
  match s with
  | [] => []
  | c :: s' =>
      match trimEnd s' with
      | [] => if is_white_space c then [] else [c]
      | t => c :: t
      end
  end.

(** [s.trim()] *)
Definition trim (s : jsstring) : jsstring := trimEnd (trimStart s).

(** Truthiness of a string: only the empty string is falsy. *)
Definition truthy (s : jsstring) : bool :=
  match s with [] => false | _ :: _ => true end.

(** Value of a code unit read as a digit: 0-9, then a-z / A-Z for 10-35. *)
Definition digit_value (c : code_unit) : option Z :=
  if ((0x30 <=? c) && (c <=? 0x39))%N then Some (Z.of_N c - 0x30)%Z
  else if ((0x61 <=? c) && (c <=? 0x7A))%N then Some (Z.of_N c - 0x61 + 10)%Z
  else if ((0x41 <=? c) && (c <=? 0x5A))%N then Some (Z.of_N c - 0x41 + 10)%Z
  else None.

Definition radix_digit (R : Z) (c : code_unit) : option Z :=
  match digit_value c with
  | Some d => if (d <? R)%Z then Some d else None
  | None => None
  end.

(** The values of the longest prefix of radix-[R] digits. *)
Fixpoint leading_digits (R : Z) (s : jsstring) : list Z :=
  match s with
  | [] => []
  | c :: s' =>
      match radix_digit R c with
      | Some d => d :: leading_digits R s'
      | None => []
      end
  end.

Definition mathInt (R : Z) (ds : list Z) : Z :=
  fold_left (fun acc d => (acc * R + d)%Z) ds 0%Z.

Definition ToInt32 (z : Z) : Z :=
  ((z + 2 ^ 31) mod 2 ^ 32 - 2 ^ 31)%Z.

(** The sign [parseInt] reads off the (left-trimmed) text. *)
Definition sign_of (s : jsstring) : Z :=
  match s with
  | c :: _ => if (c =? 0x2D)%N then (-1)%Z else 1%Z
  | [] => 1%Z
  end.

Definition starts_with_0x (s : jsstring) : bool :=
  match s with
  | z :: x :: _ => ((z =? 0x30) && ((x =? 0x78) || (x =? 0x58)))%N
  | _ => false
  end.

(** [parseInt(string, radix)], following the steps of ECMA-262 19.2.5:
    strip leading white space, read an optional sign, settle the radix
    (an absent radix means 10; "0x" is stripped only when the radix is
    absent or 16), take the longest prefix of digits; no digit gives NaN,
    otherwise the Number value of the signed integer read.  (All digits are
    read and the result is rounded once; the language lets an
    implementation ignore the digits after the twentieth significant one,
    and engines that accumulate digit by digit in binary64 round more than
    once.  The value is the same everywhere when the integer read is a
    safe integer; so is whether the result is NaN, and which prefix of the
    text is read.) *)
Definition parseInt (s : jsstring) (radix : Z) : number :=
  let S0 := trimStart s in
  let sign : Z := sign_of S0 in
  let S1 :=
    match S0 with
    | c :: rest => if ((c =? 0x2B) || (c =? 0x2D))%N then rest else S0
    | [] => S0
    end in
  let R0 := ToInt32 radix in
  if (negb (R0 =? 0) && ((R0 <? 2) || (36 <? R0)))%Z then NaN
  else
    let stripPrefix := ((R0 =? 0) || (R0 =? 16))%Z in
    let R1 := if (R0 =? 0)%Z then 10%Z else R0 in
    let prefixed := stripPrefix && starts_with_0x S1 in
    let S2 := if prefixed then skipn 2 S1 else S1 in
    let R := if prefixed then 16%Z else R1 in
    match leading_digits R S2 with
    | [] => NaN
    | ds => F (sign * mathInt R ds)
    end.

(** Decimal digits of a non-negative integer, most significant first.
    The fuel bounds the number of digits. *)
Fixpoint digits_from (fuel : nat) (n : Z) (acc : jsstring) : jsstring :=
  match fuel with
  | O => acc
  | S fuel' =>
      let acc' := (0x30 + Z.to_N (n mod 10))%N :: acc in
      if (n / 10 =? 0)%Z then acc' else digits_from fuel' (n / 10) acc'
  end.

Definition decimal_digits (n : Z) : jsstring :=
  digits_from (S (Z.to_nat (Z.log2 n))) n [].

(** The integers that are Number values: those the rounding leaves alone. *)
Definition integer_double (x : number) : Prop :=
  match x with
  | Num z => F z = Num z
  | _ => False
  end.

Definition number_is (x : number) (z : Z) : bool :=
  match x with Num v => (v =? z)%Z | _ => false end.

(** Number::toString looks for integers [n], [k], [s] with [k] as small as
    possible, [10^(k-1) <= s < 10^k] and [s * 10^(n-k)] reading back as the
    number.  For a positive integer [m], the pairs [(s, n)] that qualify
    with [k] digits. *)
Definition candidates (m k : Z) : list (Z * Z) :=
  let D := Z.of_nat (List.length (decimal_digits m)) in
  flat_map
    (fun n =>
       let p := (n - k)%Z in
       if (p <? 0)%Z then []
       else
         let lo := (m / 10 ^ p)%Z in
         filter (fun sn =>
                   ((10 ^ (k - 1) <=? fst sn) && (fst sn <? 10 ^ k)
                    && number_is (F (fst sn * 10 ^ p)) m)%Z)
                [(lo, n); ((lo + 1)%Z, n)])
    [D; (D + 1)%Z].

(** Of two candidates the one whose value is closer to [m]; the even [s]
    when they are equally close. *)
Definition closer (m k : Z) (a b : Z * Z) : Z * Z :=
  let da := Z.abs (fst a * 10 ^ (snd a - k) - m) in
  let db := Z.abs (fst b * 10 ^ (snd b - k) - m) in
  if (da <? db)%Z then a
  else if (db <? da)%Z then b
  else if Z.even (fst a) then a else b.

Fixpoint shortest (fuel : nat) (m k : Z) : option (Z * Z * Z) :=
  match fuel with
  | O => None
  | S fuel' =>
      match candidates m k with
      | c :: cs =>
          let best := fold_left (closer m k) cs c in
          Some (fst best, snd best, k)
      | [] => shortest fuel' m (k + 1)
      end
  end.

(** The text of an integer beyond the safe range: the shortest digits that
    read back as the number, padded with zeros up to 21 digits, in exponent
    notation from 10^21 on.  (Seventeen significant digits identify any
    double.) *)
Definition unsafe_integer_text (m : Z) : jsstring :=
  match shortest 17 m 1 with
  | None => decimal_digits m
  | Some (s, n, k) =>
      if (n <=? 21)%Z then decimal_digits s ++ repeat 0x30%N (Z.to_nat (n - k))
      else
        match decimal_digits s with
        | [] => []
        | d :: ds =>
            (d :: match ds with [] => [] | _ :: _ => 0x2E%N :: ds end)
            ++ [0x65%N; 0x2B%N] ++ decimal_digits (n - 1)
        end
  end.

(** [String(x)] (Number::toString, radix 10).  For a safe integer the
    shortest digits that read back are all its decimal digits. *)
Definition String (x : number) : jsstring :=
  match x with
  | NaN => js "NaN"
  | Infinity negative => if negative then js "-Infinity" else js "Infinity"
  | Num z =>
      let m := Z.abs z in
      let text :=
        if (m <=? MAX_SAFE_INTEGER)%Z then decimal_digits m
        else unsafe_integer_text m in
      if (z <? 0)%Z then 0x2D%N :: text else text
  end.

End JS.


(* ================================================================== *)
(** ** Data model and the store interface imported from [data/db] *)
(* ================================================================== *)

Module Item.
(** [type Item = { id: number; name: string; quantity: number }] *)
Record t : Type := mk { id : Z; name : JS.jsstring; quantity : JS.number }.
End Item.
Abbreviation Item := Item.t.

(** The single, undifferentiated kind of failure a store request can raise. *)
Inductive StoreError : Type := StoreFailure.

(** How an awaited promise settles. *)
Inductive Outcome (A : Type) : Type :=
| Resolved (a : A)
| Rejected (e : StoreError).
Arguments Resolved {A} a.
Arguments Rejected {A} e.

Definition is_resolved {A} (r : Outcome A) : bool :=
  match r with Resolved _ => true | Rejected _ => false end.

(** The four functions [index.tsx] imports from [data/db].  [Db] is the state
    behind the connection handle [db]; every request settles and leaves the
    store in some state. *)
Class ItemStore (Db : Type) : Type := {
  fetchItems : Db -> Outcome (list Item) * Db;
  insertItem : Db -> JS.jsstring -> JS.number -> Outcome unit * Db;
  updateItem : Db -> Z -> JS.jsstring -> JS.number -> Outcome unit * Db;
  deleteItem : Db -> Z -> Outcome unit * Db
}.

(** What the outside world can observe of a handler: the store requests it
    issues (with how each settled) and what it writes to the console. *)
Inductive StoreCall : Type :=
| CallFetch
| CallInsert (name : JS.jsstring) (quantity : JS.number)
| CallUpdate (id : Z) (name : JS.jsstring) (quantity : JS.number)
| CallDelete (id : Z).

Inductive LogArg : Type :=
| Text (s : string)
| Thrown (e : StoreError).

Inductive Event : Type :=
| Called (c : StoreCall) (ok : bool)
| ConsoleLog (args : list LogArg).

Definition is_mutation (c : StoreCall) : bool :=
  match c with CallFetch => false | _ => true end.

(** The store requests among a list of events, in order. *)
Fixpoint store_calls (es : list Event) : list StoreCall :=
  match es with
  | [] => []
  | Called c _ :: es' => c :: store_calls es'
  | ConsoleLog _ :: es' => store_calls es'
  end.

(* ================================================================== *)
(** ** The [App] component of [app/index.tsx] *)
(* ================================================================== *)

Module App.

(** The four [useState] cells. *)
Record State : Type := mkState {
  name : JS.jsstring;
  quantity : JS.jsstring;
  editingId : option Z;
  items : list Item
}.

(** State of a freshly mounted component: [useState("")], [useState("")],
    [useState(null)], [useState([])]. *)
Definition initial : State :=
  {| name := []; quantity := []; editingId := None; items := [] |}.

Inductive ButtonStyle : Type := StyleDefault | StyleCancel | StyleDestructive.

Section WithStore.

Context {Db : Type} {store : ItemStore Db}.

Record World : Type := mkWorld {
  db : Db;
  view : State;
  trace : list Event
}.

(** An [async] function body: it settles and leaves a new world. *)
Definition Async (A : Type) : Type := World -> Outcome A * World.

Definition ret {A} (a : A) : Async A := fun w => (Resolved a, w).

Definition bind {A B} (m : Async A) (k : A -> Async B) : Async B :=
  fun w =>
    match m w with
    | (Resolved a, w') => k a w'
    | (Rejected e, w') => (Rejected e, w')
    end.

(** [try { body } catch (err) { handler }] *)
Definition try_catch {A} (body : Async A) (handler : StoreError -> Async A)
  : Async A :=
  fun w =>
    match body w with
    | (Resolved a, w') => (Resolved a, w')
    | (Rejected e, w') => handler e w'
    end.

(** [await op(db, ...)]: the request reaches the store and is recorded. *)
Definition await {A} (c : StoreCall) (op : Db -> Outcome A * Db) : Async A :=
  fun w =>
    let (r, d) := op (db w) in
    (r, {| db := d; view := view w;
           trace := trace w ++ [Called c (is_resolved r)] |}).

Definition console_log (args : list LogArg) : Async unit :=
  fun w =>
    (Resolved tt,
     {| db := db w; view := view w; trace := trace w ++ [ConsoleLog args] |}).

Definition set_view (f : State -> State) : Async unit :=
  fun w => (Resolved tt, {| db := db w; view := f (view w); trace := trace w |}).

Definition setName (v : JS.jsstring) : Async unit :=
  set_view (fun s => {| name := v; quantity := quantity s;
                        editingId := editingId s; items := items s |}).

Definition setQuantity (v : JS.jsstring) : Async unit :=
  set_view (fun s => {| name := name s; quantity := v;
                        editingId := editingId s; items := items s |}).

Definition setEditingId (v : option Z) : Async unit :=
  set_view (fun s => {| name := name s; quantity := quantity s;
                        editingId := v; items := items s |}).

Definition setItems (v : list Item) : Async unit :=
  set_view (fun s => {| name := name s; quantity := quantity s;
                        editingId := editingId s; items := v |}).

Declare Scope async_scope.
Delimit Scope async_scope with async.
Notation "x <- m ;; k" := (bind m (fun x => k))
  (at level 61, m at next level, right associativity) : async_scope.
Notation "m ;; k" := (bind m (fun _ => k))
  (at level 61, right associativity) : async_scope.
Notation "'try' body 'catch' handler" := (try_catch body handler)
  (at level 62, body at level 61, handler at level 0) : async_scope.
Local Open Scope async_scope.
Local Open Scope string_scope.

(** [loadItems] (lines 70-77). *)
Definition loadItems : Async unit :=
  try (value <- await CallFetch fetchItems ;;
       setItems value)
  catch (fun err => console_log [Text "Failed to fetch items"; Thrown err]).

(** [saveItem] (lines 93-112).  The closure reads [name] and [quantity]
    of the render [c] it was created in. *)
Definition saveItem (c : State) : Async unit :=
  if negb (JS.truthy (JS.trim (name c))) then ret tt
  else
    let parsedQuantity := JS.parseInt (quantity c) 10 in
    if JS.Number_isNaN parsedQuantity then ret tt
    else
      try (await (CallInsert (name c) parsedQuantity)
                 (fun d => insertItem d (name c) parsedQuantity) ;;
           loadItems ;;
           setName [] ;;
           setQuantity [])
      catch (fun err =>
               console_log [Text "Failed to save item"] ;;
               console_log [Thrown err]).

(** [saveOrUpdate] (lines 135-153).  The closure reads [name], [quantity]
    and [editingId] of the render [c] it was created in. *)
Definition saveOrUpdate (c : State) : Async unit :=
  if negb (JS.truthy (JS.trim (name c))) then ret tt
  else
    let parsedQuantity := JS.parseInt (quantity c) 10 in
    if JS.Number_isNaN parsedQuantity then ret tt
    else
      try (match editingId c with
           | None =>
               await (CallInsert (JS.trim (name c)) parsedQuantity)
                     (fun d => insertItem d (JS.trim (name c)) parsedQuantity)
           | Some eid =>
               await (CallUpdate eid (JS.trim (name c)) parsedQuantity)
                     (fun d => updateItem d eid (JS.trim (name c)) parsedQuantity)
           end ;;
           loadItems ;;
           setName [] ;;
           setQuantity [] ;;
           setEditingId None)
      catch (fun err =>
               console_log [Text "Failed to save/update item"; Thrown err]).

(** [startEdit] (lines 171-175). *)
Definition startEdit (item : Item) : Async unit :=
  setEditingId (Some (Item.id item)) ;;
  setName (Item.name item) ;;
  setQuantity (JS.String (Item.quantity item)).

(** The argument of [Alert.alert]: a title, a message and the buttons,
    each with its optional [onPress] closure. *)
Record AlertButton : Type := mkButton {
  text : string;
  style : ButtonStyle;
  onPress : option (Async unit)
}.

Record AlertDialog : Type := mkAlert {
  title : string;
  message : string;
  buttons : list AlertButton
}.

(** [confirmDelete] (lines 193-214): the dialog it hands to [Alert.alert].
    The [onPress] closure of "Delete" reads [editingId] of the render [c]
    in which [confirmDelete] was created. *)
Definition confirmDelete (c : State) (id : Z) : AlertDialog :=
  {| title := "Delete item?";
     message := "This cannot be undone.";
     buttons :=
       [ {| text := "Cancel"; style := StyleCancel; onPress := None |};
         {| text := "Delete"; style := StyleDestructive;
            onPress := Some (
              try (await (CallDelete id) (fun d => deleteItem d id) ;;
                   loadItems ;;
                   if match editingId c with
                      | Some eid => (eid =? id)%Z
                      | None => false
                      end
                   then (setEditingId None ;;
                         setName [] ;;
                         setQuantity [])
                   else ret tt)
              catch (fun err =>
                       console_log [Text "Failed to delete item"; Thrown err]))
         |} ] |}.

(** The user dismisses an alert with the button labelled [label]: its
    [onPress], when it has one, runs. *)
Definition press (label : string) (a : AlertDialog) : Async unit :=
  match find (fun b => String.eqb (text b) label) (buttons a) with
  | Some b =>
      match onPress b with
      | Some handler => handler
      | None => ret tt
      end
  | None => ret tt
  end.

(** *** The rendered tree: which closure each control is bound to *)

(** [useEffect(() => { loadItems(); }, [])] *)
Definition mount : Async unit := loadItems.

(** [<Button onPress={saveOrUpdate} />] pressed in the current render. *)
Definition submit : Async unit := fun w => saveOrUpdate (view w) w.

(** [onDelete={() => confirmDelete(item.id)}] in the current render. *)
Definition requestDelete (id : Z) (w : World) : AlertDialog :=
  confirmDelete (view w) id.

(** Tapping a row's delete icon and answering the alert. *)
Definition deleteAndAnswer (id : Z) (label : string) : Async unit :=
  fun w => press label (requestDelete id w) w.

(** What can happen to the screen: it is opened, or the user acts on
    one of its controls. *)
Inductive Gesture : Type :=
| Mount
| TypeName (v : JS.jsstring)
| TypeQuantity (v : JS.jsstring)
| PressSave
| PressEdit (item : Item)
| PressDelete (id : Z) (answer : string).

Definition perform (g : Gesture) : Async unit :=
  match g with
  | Mount => mount
  | TypeName v => setName v
  | TypeQuantity v => setQuantity v
  | PressSave => submit
  | PressEdit item => startEdit item
  | PressDelete id answer => deleteAndAnswer id answer
  end.

(** The events a run from [w] to [w'] added to the trace. *)
Definition emitted (w w' : World) : list Event :=
  skipn (List.length (trace w)) (trace w').

End WithStore.

Arguments World Db : clear implicits.
Arguments Async Db A : clear implicits.

End App.

(* ================================================================== *)
(** ** The Item Store as the specification describes it *)
(* ================================================================== *)

Module SpecStore.

(** Modelled from the spec: the state of the Item Store of section 4.1
    (the module [data/db] is missing).  [rows] are the persisted Items in
    a stable order; [faults] is the environment's schedule of I/O
    failures, one entry per request ([true]: that request fails with a
    StoreError); an exhausted schedule means no further failure. *)
Record Db : Type := mkDb { rows : list Item; faults : list bool }.

(** Modelled from the spec: one request against the store (section 4.1,
    "each call is a single ... request"; "fails with StoreError on ... I/O
    failure").  A failed request leaves the rows as they were. *)
Definition request {A} (d : Db) (run : list Item -> A * list Item)
  : Outcome A * Db :=
  match faults d with
  | true :: fs => (Rejected StoreFailure, {| rows := rows d; faults := fs |})
  | false :: fs =>
      let (a, rs) := run (rows d) in (Resolved a, {| rows := rs; faults := fs |})
  | [] =>
      let (a, rs) := run (rows d) in (Resolved a, {| rows := rs; faults := [] |})
  end.

(** Modelled from the spec: the id the store assigns on creation ("unique,
    assigned by store on creation"): one more than the largest id present. *)
Definition fresh_id (rs : list Item) : Z :=
  (1 + fold_right Z.max 0 (map Item.id rs))%Z.

(** Modelled from the spec: [fetchAll() -> sequence of Item], "returns all
    rows, any stable order". *)
Definition fetchAll (d : Db) : Outcome (list Item) * Db :=
  request d (fun rs => (rs, rs)).

(** Modelled from the spec: [insert(name, quantity) -> void], creating one
    Item whose id the store generates. *)
Definition insert (d : Db) (name : JS.jsstring) (quantity : JS.number)
  : Outcome unit * Db :=
  request d (fun rs => (tt, rs ++ [Item.mk (fresh_id rs) name quantity])).

(** Modelled from the spec: [update(id, name, quantity) -> void], mutating
    name and quantity in place; "no-op success if id does not exist". *)
Definition update (d : Db) (id : Z) (name : JS.jsstring) (quantity : JS.number)
  : Outcome unit * Db :=
  request d (fun rs =>
    (tt, map (fun it => if (Item.id it =? id)%Z
                        then Item.mk (Item.id it) name quantity
                        else it) rs)).

(** Modelled from the spec: [delete(id) -> void], destroying the Item with
    that id; "no-op success if id does not exist". *)
Definition delete (d : Db) (id : Z) : Outcome unit * Db :=
  request d (fun rs => (tt, filter (fun it => negb (Item.id it =? id)%Z) rs)).

(** Modelled from the spec: the store of section 4.1 behind the interface
    the controller imports. *)
#[global] Instance store : ItemStore Db :=
  {| fetchItems := fetchAll;
     insertItem := insert;
     updateItem := update;
     deleteItem := delete |}.

(** Modelled from the spec: the next [n] requests meet no I/O failure. *)
Definition healthy (n : nat) (d : Db) : bool :=
  forallb negb (firstn n (faults d)).

(** Modelled from the spec: "id: integer (unique ...)" as a property of
    the rows. *)
Definition unique_ids (rs : list Item) : Prop := NoDup (map Item.id rs).

End SpecStore.

(* ================================================================== *)
(** ** The specification's vocabulary for form input *)
(* ================================================================== *)

Module Spec.

Definition is_decimal_digit (c : JS.code_unit) : bool :=
  ((0x30 <=? c) && (c <=? 0x39))%N.

Definition unsigned_part (s : JS.jsstring) : JS.jsstring :=
  match s with
  | c :: rest => if ((c =? 0x2B) || (c =? 0x2D))%N then rest else s
  | [] => []
  end.

(** "integer quantity": the text is the decimal representation of an
    integer, an optional sign followed by one or more decimal digits and
    nothing else. *)
Definition integer_string (s : JS.jsstring) : bool :=
  match unsigned_part s with
  | [] => false
  | ds => forallb is_decimal_digit ds
  end.

(** Reading decimal digits left to right, starting from [k]. *)
Definition decimal_fold (ds : JS.jsstring) (k : Z) : Z :=
  fold_left (fun acc c => (acc * 10 + (Z.of_N c - 0x30))%Z) ds k.

(** The integer such a text denotes. *)
Definition integer_value (s : JS.jsstring) : Z :=
  let magnitude := decimal_fold (unsigned_part s) 0 in
  match s with
  | c :: _ => if (c =? 0x2D)%N then (- magnitude)%Z else magnitude
  | [] => magnitude
  end.

(** "empty/whitespace name": nothing but white space (possibly nothing). *)
Definition blank (s : JS.jsstring) : bool := forallb JS.is_white_space s.

(** "invalid input (empty/whitespace name, or non-integer quantity
    string)". *)
Definition invalid_input (name quantity : JS.jsstring) : Prop :=
  blank name = true \/ integer_string quantity = false.

(** What the code rejects: the trimmed name is empty, or [parseInt] of the
    quantity text in base 10 is NaN. *)
Definition rejected_input (name quantity : JS.jsstring) : Prop :=
  JS.trim name = [] \/ JS.parseInt quantity 10 = JS.NaN.

(** The number is an integer-valued double that [String] prints in plain
    decimal digits (no exponent, not "NaN", not "Infinity"). *)
Definition plain_decimal (x : JS.number) : Prop :=
  JS.integer_double x /\ integer_string (JS.String x) = true.

(** The name is already trimmed: equal to its own trim. *)
Definition pre_trimmed (s : JS.jsstring) : Prop := JS.trim s = s.

End Spec.

(** A world over the specification's store, as found at application start. *)
Definition world0 (rs : list Item) (fs : list bool) : App.World SpecStore.Db :=
  {| App.db := {| SpecStore.rows := rs; SpecStore.faults := fs |};
     App.view := App.initial;
     App.trace := [] |}.

Definition with_form (name quantity : string) (eid : option Z)
  (w : App.World SpecStore.Db) : App.World SpecStore.Db :=
  {| App.db := App.db w;
     App.view := {| App.name := JS.js name; App.quantity := JS.js quantity;
                    App.editingId := eid; App.items := App.items (App.view w) |};
     App.trace := App.trace w |}.

(** *** Sample worlds *)

(** A blank name with a good quantity. *)
Definition blank_name_form : App.World SpecStore.Db :=
  with_form "   " "5" None (world0 [] []).

(** The specification's scenario: "Apples", "5" typed into an empty app. *)
Definition apples_5 : App.World SpecStore.Db :=
  with_form "Apples" "5" None (world0 [] []).

(** "Apples" with the quantity 2^53 + 1 typed in full. *)
Definition apples_2p53_plus_1 : App.World SpecStore.Db :=
  with_form "Apples" "9007199254740993" None (world0 [] []).

(** The same with a quantity text that only starts with digits. *)
Definition apples_7x : App.World SpecStore.Db :=
  with_form "Apples" "7x" None (world0 [] []).

(** "Apples", "5" when the store will accept the insert and fail the fetch
    that follows. *)
Definition apples_5_fetch_fails : App.World SpecStore.Db :=
  with_form "Apples" "5" None (world0 [] [false; true]).

(** "Apples", "5" when the store will fail the insert. *)
Definition apples_5_insert_fails : App.World SpecStore.Db :=
  with_form "Apples" "5" None (world0 [] [true]).

(** A name with a space on either side. *)
Definition padded_name_form : App.World SpecStore.Db :=
  with_form " a " "1" None (world0 [] []).

Definition apple_item : Item := Item.mk 1 (JS.js "Apples") (JS.Num 5).
Definition pear_item : Item := Item.mk 2 (JS.js "Pears") (JS.Num 12).
Definition padded_item : Item := Item.mk 1 (JS.js " a ") (JS.Num 5).

(** A store holding apples and pears, shown in the list, nothing in the form. *)
Definition stocked : App.World SpecStore.Db :=
  {| App.db := {| SpecStore.rows := [apple_item; pear_item]; SpecStore.faults := [] |};
     App.view := {| App.name := []; App.quantity := []; App.editingId := None;
                    App.items := [apple_item; pear_item] |};
     App.trace := [] |}.

(** The same while the apples are being edited. *)
Definition editing_apples : App.World SpecStore.Db :=
  with_form "Apples" "5" (Some 1%Z) stocked.

(** "a" with the quantity 10^21 typed in full, and the Item it becomes. *)
Definition bulk_form : App.World SpecStore.Db :=
  with_form "a" "1000000000000000000000" None (world0 [] []).

Definition bulk_item : Item :=
  Item.mk 1 (JS.js "a") (JS.Num 1000000000000000000000).

(** A store holding an Item whose name is padded with spaces. *)
Definition stocked_padded : App.World SpecStore.Db :=
  {| App.db := {| SpecStore.rows := [padded_item]; SpecStore.faults := [] |};
     App.view := {| App.name := []; App.quantity := []; App.editingId := None;
                    App.items := [padded_item] |};
     App.trace := [] |}.

(* ================================================================== *)
(** ** Vocabulary for stating what a handler did *)
(* ================================================================== *)

Module Obs.

Import App.

(** The view with its list replaced. *)
Definition with_items (value : list Item) (s : State) : State :=
  {| name := name s; quantity := quantity s;
     editingId := editingId s; items := value |}.

(** The view back in idle-create with both form fields empty. *)
Definition cleared (s : State) : State :=
  {| name := []; quantity := []; editingId := None; items := items s |}.

(** [editingId === id] *)
Definition editing (s : State) (id : Z) : bool :=
  match editingId s with
  | Some eid => (eid =? id)%Z
  | None => false
  end.

(** The form part of the view: the two fields and the editing flag. *)
Definition form (s : State) : JS.jsstring * JS.jsstring * option Z :=
  (name s, quantity s, editingId s).

(** The request [saveOrUpdate] sends for a form that passed validation
    with parsed quantity [q]: insert when idle-create, update when
    editing. *)
Definition saved_call (s : State) (q : JS.number) : StoreCall :=
  match editingId s with
  | None => CallInsert (JS.trim (name s)) q
  | Some eid => CallUpdate eid (JS.trim (name s)) q
  end.

Definition saved_request {Db} {store : ItemStore Db}
  (s : State) (q : JS.number) (d : Db) : Outcome unit * Db :=
  match editingId s with
  | None => insertItem d (JS.trim (name s)) q
  | Some eid => updateItem d eid (JS.trim (name s)) q
  end.

(** A successful / failed mutation request among the events. *)
Definition mutation_settled (ok : bool) (es : list Event) : Prop :=
  exists m, is_mutation m = true /\ In (Called m ok) es.

(** The error was written to the console. *)
Definition logged (es : list Event) : Prop :=
  exists args e, In (ConsoleLog args) es /\ In (Thrown e) args.

End Obs.

(* ================================================================== *)
(** ** What [App] renders, and [components/ItemRow.tsx] *)
(* ================================================================== *)

Module Screen.

Import App.

(** What one [ItemRow] puts on the screen: the two texts of the info
    column and the two touchables of the actions column, each with its
    accessibility label and its [onPress]. *)
Record RowView (E D : Type) : Type := mkRow {
  shown_name : JS.jsstring;
  shown_qty : JS.jsstring;
  edit_label : JS.jsstring;
  edit_onPress : E;
  delete_label : JS.jsstring;
  delete_onPress : D
}.
Arguments mkRow {E D}.
Arguments shown_name {E D}.
Arguments shown_qty {E D}.
Arguments edit_label {E D}.
Arguments edit_onPress {E D}.
Arguments delete_label {E D}.
Arguments delete_onPress {E D}.

(** [ItemRow] (ItemRow.tsx, lines 12-45): [{name}], [Qty: {quantity}],
    [`Edit ${name}`], [`Delete ${name}`]; the callbacks are passed through
    untouched.  The component keeps no state. *)
Definition ItemRow {E D} (name : JS.jsstring) (quantity : JS.number)
  (onEdit : E) (onDelete : D) : RowView E D :=
  {| shown_name := name;
     shown_qty := JS.js "Qty: " ++ JS.String quantity;
     edit_label := JS.js "Edit " ++ name;
     edit_onPress := onEdit;
     delete_label := JS.js "Delete " ++ name;
     delete_onPress := onDelete |}.

Section WithStore.

Context {Db : Type} {store : ItemStore Db}.

(** What [App] returns (index.tsx, lines 216-282), styles left out: the
    title, the two controlled inputs, the button, and the list with its
    keys, its rows and the component shown in place of an empty list. *)
Record View : Type := mkView {
  title_text : string;
  name_placeholder : string;
  name_value : JS.jsstring;
  name_onChangeText : JS.jsstring -> Async Db unit;
  quantity_placeholder : string;
  quantity_value : JS.jsstring;
  quantity_onChangeText : JS.jsstring -> Async Db unit;
  button_title : string;
  button_onPress : Async Db unit;
  list_keys : list JS.jsstring;
  list_rows : list (RowView (Async Db unit) (@AlertDialog Db));
  list_empty : option string;
  list_centered : bool
}.

Definition render (c : State) : View :=
  {| title_text := "SQLite Example";
     name_placeholder := "Item Name";
     name_value := name c;
     name_onChangeText := setName;
     quantity_placeholder := "Quantity";
     quantity_value := quantity c;
     quantity_onChangeText := setQuantity;
     button_title :=
       match editingId c with
       | None => "Save Item"%string
       | Some _ => "Update Item"%string
       end;
     button_onPress := saveOrUpdate c;
     list_keys := map (fun item => JS.String (JS.Num (Item.id item))) (items c);
     list_rows :=
       map (fun item =>
              ItemRow (Item.name item) (Item.quantity item)
                      (startEdit item)
                      (confirmDelete c (Item.id item)))
           (items c);
     list_empty :=
       match items c with
       | [] => Some "No items yet. Add your first one above."%string
       | _ :: _ => None
       end;
     list_centered := (List.length (items c) =? 0)%nat |}.

(** The user presses the button of the current render. *)
Definition tapButton : Async Db unit :=
  fun w => button_onPress (render (view w)) w.

(** The user taps the edit icon of the row at position [i] of the current
    render (nothing happens where there is no such row). *)
Definition tapEdit (i : nat) : Async Db unit :=
  fun w =>
    match nth_error (list_rows (render (view w))) i with
    | Some row => edit_onPress row w
    | None => (Resolved tt, w)
    end.

(** The user taps the delete icon of the row at position [i] and answers
    the alert with the button labelled [answer]. *)
Definition tapDelete (i : nat) (answer : string) : Async Db unit :=
  fun w =>
    match nth_error (list_rows (render (view w))) i with
    | Some row => press answer (delete_onPress row) w
    | None => (Resolved tt, w)
    end.

End WithStore.

Arguments View Db : clear implicits.

End Screen.

(* ================================================================== *)
(** ** Sessions: gestures one after the other *)
(* ================================================================== *)

Module Session.

Import App.

(** The world after the gestures [gs], performed in order from [w]. *)
Definition session {Db} {store : ItemStore Db}
  (gs : list Gesture) (w : World Db) : World Db :=
  fold_left (fun w g => snd (perform g w)) gs w.

(** The gestures that only fill the form: typing and tapping an edit icon. *)
Definition form_only (g : Gesture) : bool :=
  match g with
  | TypeName _ | TypeQuantity _ | PressEdit _ => true
  | _ => false
  end.

(** An insert or update that carries a trimmed, non-empty name and a
    quantity that is not NaN; fetch and delete carry neither. *)
Definition well_formed_call (c : StoreCall) : Prop :=
  match c with
  | CallInsert n q | CallUpdate _ n q =>
      Spec.pre_trimmed n /\ n <> [] /\ q <> JS.NaN
  | CallFetch | CallDelete _ => True
  end.

Definition with_name (v : JS.jsstring) (s : State) : State :=
  {| name := v; quantity := quantity s;
     editingId := editingId s; items := items s |}.

Definition with_quantity (v : JS.jsstring) (s : State) : State :=
  {| name := name s; quantity := v;
     editingId := editingId s; items := items s |}.

(** The quantity text, after leading white space and one optional sign,
    starts with a decimal digit. *)
Definition starts_with_digit (s : JS.jsstring) : bool :=
  match Spec.unsigned_part (JS.trimStart s) with
  | c :: _ => Spec.is_decimal_digit c
  | [] => false
  end.

(** NaN or an infinity. *)
Definition non_finite (x : JS.number) : Prop :=
  match x with
  | JS.Num _ => False
  | _ => True
  end.

(** A "1" followed by [n] zeros. *)
Definition one_and_zeros (n : nat) : JS.jsstring :=
  0x31%N :: repeat 0x30%N n.

End Session.

(** *** More sample worlds *)

(** "Apples" with a quantity followed by a unit. *)
Definition apples_7_kg : App.World SpecStore.Db :=
  with_form "Apples" "7 kg" None (world0 [] []).

(** "Apples" with the quantity 10^309 typed in full. *)
Definition apples_googol_cubed : App.World SpecStore.Db :=
  {| App.db := {| SpecStore.rows := []; SpecStore.faults := [] |};
     App.view := {| App.name := JS.js "Apples";
                    App.quantity := Session.one_and_zeros 309;
                    App.editingId := None; App.items := [] |};
     App.trace := [] |}.

(** An Item whose quantity is infinite, as the store returns it. *)
Definition endless_item : Item :=
  Item.mk 3 (JS.js "Sand") (JS.Infinity false).

(** Filling the form with " Apples " and "5x", then pressing the button. *)
Definition fill_and_save : list (@App.Gesture) :=
  [App.TypeName (JS.js " Apples "); App.TypeQuantity (JS.js "5x"); App.PressSave].

(** Typing, tapping the pears' edit icon, typing again. *)
Definition fiddle : list (@App.Gesture) :=
  [App.TypeName (JS.js "x"); App.PressEdit pear_item; App.TypeQuantity (JS.js "?")].

(* ================================================================== *)
(** ** Facts about the JavaScript fragment *)
(* ================================================================== *)

Module JSFacts.

Import JS.

(** *** The fragment on known values *)

Example parseInt_known :
  parseInt (js "5") 10 = Num 5 /\
  parseInt (js "  -42abc") 10 = Num (-42) /\
  parseInt (js "7x") 10 = Num 7 /\
  parseInt (js "+12.5") 10 = Num 12 /\
  parseInt (js "1e3") 10 = Num 1 /\
  parseInt (js "0x1F") 10 = Num 0 /\
  parseInt (js "0x1F") 16 = Num 31 /\
  parseInt (js "") 10 = NaN /\
  parseInt (js "x7") 10 = NaN /\
  parseInt (js "--1") 10 = NaN /\
  parseInt (js "Infinity") 10 = NaN /\
  parseInt (js "9007199254740993") 10 = Num 9007199254740992.
Proof. vm_compute. repeat split. Qed.

Example F_known :
  F (2 ^ 53 + 1) = Num (2 ^ 53) /\
  F (2 ^ 53 + 3) = Num (2 ^ 53 + 4) /\
  F (10 ^ 21) = Num (10 ^ 21) /\
  F (10 ^ 23) = Num 99999999999999991611392 /\
  F (2 ^ 1024 - 2 ^ 970 - 1) = Num (2 ^ 1024 - 2 ^ 971) /\
  F (2 ^ 1024 - 2 ^ 970) = Infinity false /\
  F (- 10 ^ 400) = Infinity true.
Proof. vm_compute. repeat split. Qed.

Example String_known :
  String (Num 1203) = js "1203" /\
  String (Num (-70)) = js "-70" /\
  String (Num 0) = js "0" /\
  String (Num (2 ^ 53 - 1)) = js "9007199254740991" /\
  String (Num (2 ^ 60)) = js "1152921504606847000" /\
  String (Num (2 ^ 64)) = js "18446744073709552000" /\
  String (Num (10 ^ 21)) = js "1e+21" /\
  String (Num 99999999999999991611392) = js "1e+23" /\
  String (Num (2 ^ 70)) = js "1.1805916207174113e+21" /\
  String (Num (2 ^ 1024 - 2 ^ 971)) = js "1.7976931348623157e+308" /\
  String NaN = js "NaN".
Proof. vm_compute. repeat split. Qed.

Example trim_known :
  trim (js "  a b  ") = js "a b" /\
  trim (js "   ") = [] /\
  trim [0x9; 0xA0; 0x61; 0xFEFF; 0x2028]%N = js "a".
Proof. vm_compute. repeat split. Qed.

(** *** [trim] *)

Lemma trimStart_cases (s : jsstring) :
  trimStart s = [] \/
  exists c t, trimStart s = c :: t /\ is_white_space c = false.
Proof.
  induction s as [|c s IH]; simpl; [now left|].
  destruct (is_white_space c) eqn:Hc; [exact IH|].
  right; exists c, s; auto.
Qed.

Lemma trimStart_fixed (c : code_unit) (t : jsstring) :
  is_white_space c = false -> trimStart (c :: t) = c :: t.
Proof. intros Hc; simpl; now rewrite Hc. Qed.

Lemma trimStart_nil_iff (s : jsstring) :
  trimStart s = [] <-> forallb is_white_space s = true.
Proof.
  induction s as [|c s IH]; simpl; [tauto|].
  destruct (is_white_space c); simpl; [exact IH|].
  split; discriminate.
Qed.

Lemma trimEnd_nil_iff (s : jsstring) :
  trimEnd s = [] <-> forallb is_white_space s = true.
Proof.
  induction s as [|c s IH]; simpl; [tauto|].
  destruct (trimEnd s) as [|d t] eqn:Ht.
  - destruct (is_white_space c); simpl.
    + tauto.
    + split; discriminate.
  - split; [discriminate|].
    intros H; apply andb_true_iff in H as [_ H].
    apply IH in H; discriminate.
Qed.

Lemma trimEnd_head (c : code_unit) (s : jsstring) :
  is_white_space c = false -> exists t, trimEnd (c :: s) = c :: t.
Proof.
  intros Hc; simpl; rewrite Hc.
  destruct (trimEnd s); eauto.
Qed.

Lemma trimEnd_idem (s : jsstring) : trimEnd (trimEnd s) = trimEnd s.
Proof.
  induction s as [|c s IH]; simpl; [reflexivity|].
  destruct (trimEnd s) as [|d t] eqn:Ht.
  - destruct (is_white_space c) eqn:Hc; simpl; [reflexivity|].
    now rewrite Hc.
  - change (trimEnd (c :: d :: t)) with
      (match trimEnd (d :: t) with
       | [] => if is_white_space c then [] else [c]
       | u => c :: u
       end).
    now rewrite IH.
Qed.

(** [trim] is idempotent: a trimmed string is pre-trimmed. *)
Lemma trim_idem (s : jsstring) : trim (trim s) = trim s.
Proof.
  unfold trim.
  destruct (trimStart_cases s) as [H | (c & t & H & Hc)]; rewrite H.
  - reflexivity.
  - destruct (trimEnd_head c t Hc) as [u Hu].
    rewrite Hu, (trimStart_fixed c u Hc), <- Hu.
    apply trimEnd_idem.
Qed.

Lemma forallb_trimStart (s : jsstring) :
  forallb is_white_space (trimStart s) = forallb is_white_space s.
Proof.
  induction s as [|c s IH]; simpl; [reflexivity|].
  destruct (is_white_space c) eqn:Hc; simpl; [exact IH|].
  now rewrite Hc.
Qed.

(** The guard [!name.trim()] fires exactly on blank names. *)
Lemma trim_nil_iff_blank (s : jsstring) :
  trim s = [] <-> Spec.blank s = true.
Proof.
  unfold trim, Spec.blank.
  rewrite trimEnd_nil_iff, forallb_trimStart; tauto.
Qed.

(** *** [parseInt] in base 10 *)

Lemma parseInt_base10 (s : jsstring) :
  parseInt s 10 =
  match leading_digits 10 (Spec.unsigned_part (trimStart s)) with
  | [] => NaN
  | ds => F (sign_of (trimStart s) * mathInt 10 ds)
  end.
Proof.
  unfold parseInt.
  replace (ToInt32 10) with 10%Z by reflexivity.
  cbn [Z.eqb Z.ltb Z.compare Pos.compare Pos.compare_cont negb orb andb].
  destruct (trimStart s) as [|c t]; reflexivity.
Qed.

(** [parseInt(s, 10)] is NaN exactly when, after leading white space and
    one optional sign, the text does not start with a decimal digit. *)
Lemma F_not_NaN (z : Z) : F z <> NaN.
Proof.
  unfold F. destruct (Z.abs z <? 2 ^ 53)%Z; [discriminate|].
  match goal with |- (if ?b then _ else _) <> _ => destruct b end;
    discriminate.
Qed.

(** On the safe integers the Number value is the integer itself. *)
Lemma F_safe (z : Z) : safe_integer (Num z) -> F z = Num z.
Proof.
  unfold safe_integer, MAX_SAFE_INTEGER, F. intros H.
  destruct (Z.ltb_spec (Z.abs z) (2 ^ 53)); [reflexivity | lia].
Qed.

Lemma parseInt_NaN_iff (s : jsstring) :
  parseInt s 10 = NaN <->
  leading_digits 10 (Spec.unsigned_part (trimStart s)) = [].
Proof.
  rewrite parseInt_base10.
  destruct (leading_digits 10 (Spec.unsigned_part (trimStart s))) as [|d ds].
  - tauto.
  - split; [|discriminate]. intros H. exfalso. exact (F_not_NaN _ H).
Qed.

Ltac n_bools :=
  repeat match goal with
    | H : (_ && _)%bool = true |- _ => apply andb_true_iff in H as [? ?]
    | H : (_ || _)%bool = false |- _ => apply orb_false_iff in H as [? ?]
    | H : (_ <=? _)%N = true |- _ => apply N.leb_le in H
    | H : (_ =? _)%N = true |- _ => apply N.eqb_eq in H
    | H : (_ =? _)%N = false |- _ => apply N.eqb_neq in H
    | |- (_ || _)%bool = false => apply orb_false_iff; split
    | |- (_ && _)%bool = false => apply andb_false_iff
    | |- (_ =? _)%N = false => apply N.eqb_neq
    end.

Lemma digit_not_space (c : code_unit) :
  Spec.is_decimal_digit c = true -> is_white_space c = false.
Proof.
  unfold Spec.is_decimal_digit, is_white_space; intros H; n_bools;
    try lia.
  left; apply N.leb_gt; lia.
Qed.

Lemma digit_not_sign (c : code_unit) :
  Spec.is_decimal_digit c = true -> ((c =? 0x2B) || (c =? 0x2D))%N = false.
Proof. unfold Spec.is_decimal_digit; intros H; n_bools; lia. Qed.

Lemma sign_not_space (c : code_unit) :
  ((c =? 0x2B) || (c =? 0x2D))%N = true -> is_white_space c = false.
Proof.
  intros H; apply orb_true_iff in H as [H | H];
    apply N.eqb_eq in H; subst c; reflexivity.
Qed.

Lemma digit_radix10 (c : code_unit) :
  Spec.is_decimal_digit c = true ->
  radix_digit 10 c = Some (Z.of_N c - 0x30)%Z.
Proof.
  unfold radix_digit, digit_value, Spec.is_decimal_digit; intros H.
  rewrite H; n_bools.
  destruct (Z.ltb_spec (Z.of_N c - 0x30) 10); [reflexivity | lia].
Qed.

Lemma leading_digits_all (ds : jsstring) :
  forallb Spec.is_decimal_digit ds = true ->
  leading_digits 10 ds = map (fun c => (Z.of_N c - 0x30)%Z) ds.
Proof.
  induction ds as [|c ds IH]; simpl; [reflexivity|].
  intros H; apply andb_true_iff in H as [Hc Hds].
  now rewrite (digit_radix10 c Hc), IH.
Qed.

Lemma mathInt_map (f : code_unit -> Z) (ds : jsstring) (k : Z) :
  fold_left (fun acc d => (acc * 10 + d)%Z) (map f ds) k =
  fold_left (fun acc c => (acc * 10 + f c)%Z) ds k.
Proof. revert k; induction ds as [|c ds IH]; simpl; intros; auto. Qed.

(** On the decimal representation of an integer, [parseInt] in base 10
    returns the Number value of the integer it denotes. *)
Lemma integer_string_parse (s : jsstring) :
  Spec.integer_string s = true ->
  parseInt s 10 = F (Spec.integer_value s).
Proof.
  unfold Spec.integer_string, Spec.integer_value; intros H.
  rewrite parseInt_base10.
  destruct s as [|c rest]; [discriminate|].
  assert (Hws : is_white_space c = false).
  { cbn [Spec.unsigned_part] in H.
    destruct ((c =? 0x2B) || (c =? 0x2D))%N eqn:Hs.
    - now apply sign_not_space.
    - apply andb_true_iff in H as [Hc _]. now apply digit_not_space. }
  rewrite (JSFacts.trimStart_fixed c rest Hws).
  destruct (Spec.unsigned_part (c :: rest)) as [|d ds] eqn:Hu; [discriminate|].
  rewrite (leading_digits_all (d :: ds) H).
  cbn [map]. unfold mathInt, Spec.decimal_fold. cbn [sign_of].
  change (?x :: map ?f ?l) with (map f (d :: ds)) at 1.
  rewrite mathInt_map.
  unfold code_unit.
  destruct (c =? 0x2D)%N; f_equal; lia.
Qed.

Lemma integer_string_not_NaN (s : jsstring) :
  Spec.integer_string s = true -> parseInt s 10 <> NaN.
Proof. intros H; rewrite (integer_string_parse s H); apply F_not_NaN. Qed.

(** Whatever the code rejects is invalid in the specification's sense. *)
Lemma rejected_input_invalid (name quantity : jsstring) :
  Spec.rejected_input name quantity -> Spec.invalid_input name quantity.
Proof.
  intros [Hn | Hq]; [left | right].
  - now apply trim_nil_iff_blank.
  - destruct (Spec.integer_string quantity) eqn:Hi; [|reflexivity].
    exfalso. exact (integer_string_not_NaN quantity Hi Hq).
Qed.

(** *** [String(number)] and back *)

Lemma digits_from_spec (fuel : nat) :
  forall (n : Z) (acc : jsstring),
    (0 <= n < 2 ^ Z.of_nat fuel)%Z -> (1 <= fuel)%nat ->
    exists ds,
      digits_from fuel n acc = ds ++ acc /\
      ds <> [] /\
      forallb Spec.is_decimal_digit ds = true /\
      forall k, Spec.decimal_fold ds k = (k * 10 ^ Z.of_nat (List.length ds) + n)%Z.
Proof.
  induction fuel as [|f IH]; intros n acc Hn Hf; [lia|].
  cbn [digits_from].
  set (d0 := (0x30 + Z.to_N (n mod 10))%N).
  assert (Hmod : (0 <= n mod 10 < 10)%Z) by (apply Z.mod_pos_bound; lia).
  assert (Hd0 : Z.of_N d0 = (0x30 + n mod 10)%Z).
  { unfold d0. rewrite N2Z.inj_add, Z2N.id by lia. reflexivity. }
  assert (Hdig : Spec.is_decimal_digit d0 = true).
  { unfold Spec.is_decimal_digit. apply andb_true_iff; split; apply N.leb_le; lia. }
  pose proof (Z.div_mod n 10 ltac:(lia)) as Hdm.
  destruct (Z.eqb_spec (n / 10) 0) as [Hq | Hq].
  - exists [d0]. repeat split.
    + discriminate.
    + simpl. now rewrite Hdig.
    + intros k. unfold Spec.decimal_fold. cbn [fold_left List.length].
      rewrite Hd0. change (10 ^ Z.of_nat 1)%Z with 10%Z. lia.
  - assert (Hn10 : (10 <= n)%Z).
    { destruct (Z_lt_le_dec n 10) as [Hlt|]; [|assumption].
      rewrite Z.div_small in Hq by lia. congruence. }
    assert (Hf1 : (1 <= f)%nat).
    { destruct f; [|lia]. change (2 ^ Z.of_nat 1)%Z with 2%Z in Hn. lia. }
    assert (Hpow : (2 ^ Z.of_nat (S f) = 2 * 2 ^ Z.of_nat f)%Z).
    { rewrite Nat2Z.inj_succ, Z.pow_succ_r by lia. reflexivity. }
    destruct (IH (n / 10)%Z (d0 :: acc)) as (ds & Heq & Hne & Hall & Hfold).
    { split; [apply Z.div_pos; lia|].
      apply Z.div_lt_upper_bound; lia. }
    { exact Hf1. }
    exists (ds ++ [d0]). repeat split.
    + rewrite Heq, <- app_assoc. reflexivity.
    + destruct ds; discriminate.
    + rewrite forallb_app, Hall. simpl. now rewrite Hdig.
    + intros k. unfold Spec.decimal_fold in *.
      rewrite fold_left_app, Hfold. cbn [fold_left].
      rewrite Hd0, length_app. cbn [List.length].
      replace (Z.of_nat (List.length ds + 1)) with (Z.succ (Z.of_nat (List.length ds))) by lia.
      rewrite Z.pow_succ_r by lia. lia.
Qed.

Lemma decimal_digits_spec (n : Z) :
  (0 <= n)%Z ->
  decimal_digits n <> [] /\
  forallb Spec.is_decimal_digit (decimal_digits n) = true /\
  Spec.decimal_fold (decimal_digits n) 0 = n.
Proof.
  intros Hn. unfold decimal_digits.
  destruct (digits_from_spec (S (Z.to_nat (Z.log2 n))) n [])
    as (ds & Heq & Hne & Hall & Hfold).
  - split; [assumption|].
    rewrite Nat2Z.inj_succ, Z2Nat.id by apply Z.log2_nonneg.
    destruct (Z.eq_dec n 0) as [-> | Hnz]; [reflexivity|].
    apply Z.log2_spec; lia.
  - lia.
  - rewrite Heq, app_nil_r. split; [assumption|]. split; [assumption|].
    rewrite Hfold. lia.
Qed.

Lemma unsigned_part_digits (ds : jsstring) :
  ds <> [] -> forallb Spec.is_decimal_digit ds = true ->
  Spec.unsigned_part ds = ds /\
  exists c t, ds = c :: t /\ (c =? 0x2D)%N = false.
Proof.
  destruct ds as [|c t]; [congruence|]; intros _ H.
  simpl in H; apply andb_true_iff in H as [Hc _].
  pose proof (digit_not_sign c Hc) as Hs.
  cbn [Spec.unsigned_part]. rewrite Hs. split; [reflexivity|].
  exists c, t; split; [reflexivity|].
  now apply orb_false_iff in Hs.
Qed.

Lemma String_safe (z : Z) :
  safe_integer (Num z) ->
  String (Num z) =
  if (z <? 0)%Z then 0x2D%N :: decimal_digits (- z) else decimal_digits z.
Proof.
  unfold safe_integer, String. intros H.
  destruct (Z.leb_spec (Z.abs z) MAX_SAFE_INTEGER) as [_ | Hgt]; [|lia].
  destruct (Z.ltb_spec z 0).
  - now rewrite Z.abs_neq by lia.
  - now rewrite Z.abs_eq by lia.
Qed.

(** What [String] prints for a safe integer is the decimal representation
    of that integer. *)
Lemma String_integer (z : Z) :
  safe_integer (Num z) ->
  Spec.integer_string (String (Num z)) = true /\
  Spec.integer_value (String (Num z)) = z.
Proof.
  intros Hsafe. rewrite (String_safe z Hsafe).
  destruct (Z.ltb_spec z 0) as [Hneg | Hpos].
  - destruct (decimal_digits_spec (- z)) as (Hne & Hall & Hfold); [lia|].
    unfold Spec.integer_string, Spec.integer_value.
    cbn [Spec.unsigned_part N.eqb Pos.eqb orb].
    destruct (decimal_digits (- z)) as [|d ds] eqn:Hd; [congruence|].
    split; [exact Hall|]. rewrite Hfold. lia.
  - destruct (decimal_digits_spec z Hpos) as (Hne & Hall & Hfold).
    destruct (unsigned_part_digits _ Hne Hall) as (Hu & c & t & Hct & Hc).
    unfold Spec.integer_string, Spec.integer_value. rewrite Hu.
    split.
    + destruct (decimal_digits z); [congruence | exact Hall].
    + rewrite Hfold, Hct, Hc. reflexivity.
Qed.

(** *** Beyond the safe integers *)

Lemma F_opp (x v : Z) : F x = Num v -> F (- x) = Num (- v).
Proof.
  unfold F. rewrite Z.abs_opp, Z.sgn_opp.
  destruct (Z.abs x <? 2 ^ 53)%Z.
  - intros H; inversion H; reflexivity.
  - match goal with |- context [if ?b then _ else _] => destruct b end.
    + intros H; inversion H; f_equal; lia.
    + discriminate.
Qed.

Lemma decimal_fold_app (ds1 ds2 : jsstring) (k : Z) :
  Spec.decimal_fold (ds1 ++ ds2) k = Spec.decimal_fold ds2 (Spec.decimal_fold ds1 k).
Proof. unfold Spec.decimal_fold. apply fold_left_app. Qed.

Lemma decimal_fold_zeros (j : nat) (k : Z) :
  Spec.decimal_fold (repeat 0x30%N j) k = (k * 10 ^ Z.of_nat j)%Z.
Proof.
  revert k; induction j as [|j IH]; intros k.
  - cbn. lia.
  - cbn [repeat]. change (Spec.decimal_fold (0x30%N :: ?l) k)
      with (Spec.decimal_fold l (k * 10 + (Z.of_N 0x30 - 0x30))%Z).
    rewrite IH, Nat2Z.inj_succ, Z.pow_succ_r by lia.
    change (Z.of_N 0x30 - 0x30)%Z with 0%Z. lia.
Qed.

Lemma forallb_zeros (j : nat) :
  forallb Spec.is_decimal_digit (repeat 0x30%N j) = true.
Proof. induction j; cbn in *; auto. Qed.

Lemma closer_cases (m k : Z) (a b : Z * Z) :
  closer m k a b = a \/ closer m k a b = b.
Proof.
  unfold closer.
  repeat match goal with |- context [if ?c then _ else _] => destruct c end;
    auto.
Qed.

Lemma fold_closer_in (m k : Z) (cs : list (Z * Z)) (c : Z * Z) :
  In (fold_left (closer m k) cs c) (c :: cs).
Proof.
  revert c; induction cs as [|d cs IH]; intros c; cbn [fold_left].
  - now left.
  - destruct (closer_cases m k c d) as [-> | ->].
    + destruct (IH c) as [H | H]; [now left | right; now right].
    + right. apply IH.
Qed.

Lemma candidates_read_back (m k s n : Z) :
  In (s, n) (candidates m k) ->
  (0 <= n - k)%Z /\ (0 <= s)%Z /\ F (s * 10 ^ (n - k)) = Num m.
Proof.
  unfold candidates. rewrite in_flat_map. intros (n' & _ & Hin).
  destruct (Z.ltb_spec (n' - k) 0) as [|Hp]; [destruct Hin|].
  apply filter_In in Hin as [Hin Hok].
  assert (Hn : n = n') by (destruct Hin as [H | [H | []]]; congruence).
  subst n'. cbn [fst] in Hok.
  apply andb_true_iff in Hok as [Hok Hread].
  apply andb_true_iff in Hok as [Hlo _].
  apply Z.leb_le in Hlo.
  split; [assumption|]. split.
  - pose proof (Z.pow_nonneg 10 (k - 1) ltac:(lia)). lia.
  - unfold number_is in Hread.
    destruct (F (s * 10 ^ (n - k))) as [| |v]; try discriminate.
    apply Z.eqb_eq in Hread. now subst.
Qed.

Lemma shortest_read_back (fuel : nat) :
  forall m k s n k',
    shortest fuel m k = Some (s, n, k') ->
    (0 <= n - k')%Z /\ (0 <= s)%Z /\ F (s * 10 ^ (n - k')) = Num m.
Proof.
  induction fuel as [|f IH]; intros m k s n k'; cbn [shortest]; [discriminate|].
  destruct (candidates m k) as [|c cs] eqn:Hc.
  - apply IH.
  - intros H; inversion H; subst; clear H.
    apply (candidates_read_back m k').
    rewrite Hc, <- surjective_pairing. apply fold_closer_in.
Qed.

Lemma digits_value (ds : jsstring) :
  ds <> [] -> forallb Spec.is_decimal_digit ds = true ->
  Spec.integer_string ds = true /\
  Spec.integer_value ds = Spec.decimal_fold ds 0.
Proof.
  intros Hne Hall.
  destruct (unsigned_part_digits ds Hne Hall) as (Hu & c & t & Hct & Hc).
  unfold Spec.integer_string, Spec.integer_value. rewrite Hu. split.
  - destruct ds; [congruence | exact Hall].
  - now rewrite Hct, Hc.
Qed.

Lemma integer_string_digits (ds : jsstring) :
  Spec.integer_string ds = true ->
  forallb Spec.is_decimal_digit (Spec.unsigned_part ds) = true.
Proof.
  unfold Spec.integer_string.
  destruct (Spec.unsigned_part ds); [discriminate | auto].
Qed.

(** The text of an integer beyond the safe range, when it happens to be in
    plain digits, reads back as that integer. *)
Lemma unsafe_integer_text_reads_back (m : Z) :
  (0 <= m)%Z -> F m = Num m ->
  Spec.integer_string (unsafe_integer_text m) = true ->
  unsafe_integer_text m <> [] /\
  forallb Spec.is_decimal_digit (unsafe_integer_text m) = true /\
  F (Spec.decimal_fold (unsafe_integer_text m) 0) = Num m.
Proof.
  intros Hm HF. unfold unsafe_integer_text.
  destruct (shortest 17 m 1) as [[[s n] k]|] eqn:Hs.
  - destruct (shortest_read_back 17 m 1 s n k Hs) as (Hp & Hs0 & Hread).
    destruct (decimal_digits_spec s Hs0) as (Hne & Hall & Hfold).
    destruct (Z.leb_spec n 21) as [Hn | Hn].
    + intros _. split; [|split].
      * destruct (decimal_digits s); [congruence | discriminate].
      * now rewrite forallb_app, Hall, forallb_zeros.
      * rewrite decimal_fold_app, Hfold, decimal_fold_zeros, Z2Nat.id by lia.
        exact Hread.
    + intros Hplain. exfalso.
      destruct (decimal_digits s) as [|d ds] eqn:Hd; [congruence|].
      cbn [forallb] in Hall. apply andb_true_iff in Hall as [Hdig Hds].
      apply integer_string_digits in Hplain.
      cbn [app Spec.unsigned_part] in Hplain.
      rewrite (digit_not_sign d Hdig) in Hplain.
      cbn [forallb] in Hplain. rewrite Hdig in Hplain. cbn [andb] in Hplain.
      destruct ds; cbn [app forallb] in Hplain;
        match type of Hplain with
        | (Spec.is_decimal_digit ?c && _)%bool = true =>
            change (Spec.is_decimal_digit c) with false in Hplain
        end; discriminate Hplain.
  - intros _. destruct (decimal_digits_spec m Hm) as (Hne & Hall & Hfold).
    split; [assumption|]. split; [assumption|]. now rewrite Hfold.
Qed.

(** The round trip through the quantity field: a number that [String]
    prints in plain decimal digits is what [parseInt] reads back. *)
Lemma parseInt_String_plain (x : number) :
  Spec.plain_decimal x -> parseInt (String x) 10 = x.
Proof.
  intros [Hdouble Hplain].
  destruct x as [| |z]; cbn [integer_double] in Hdouble; try contradiction.
  rewrite (integer_string_parse _ Hplain).
  revert Hplain. unfold String.
  assert (Habs : F (Z.abs z) = Num (Z.abs z)).
  { destruct (Z.abs_spec z) as [[_ ->] | [_ ->]]; [assumption|].
    apply F_opp with (x := z) (v := z). assumption. }
  assert (Htext :
    Spec.integer_string
      (if (Z.abs z <=? MAX_SAFE_INTEGER)%Z then decimal_digits (Z.abs z)
       else unsafe_integer_text (Z.abs z)) = true ->
    let text := if (Z.abs z <=? MAX_SAFE_INTEGER)%Z then decimal_digits (Z.abs z)
                else unsafe_integer_text (Z.abs z) in
    text <> [] /\ forallb Spec.is_decimal_digit text = true /\
    F (Spec.decimal_fold text 0) = Num (Z.abs z)).
  { cbv zeta. destruct (Z.abs z <=? MAX_SAFE_INTEGER)%Z.
    - intros _. destruct (decimal_digits_spec (Z.abs z) (Z.abs_nonneg z))
        as (Hne & Hall & Hfold).
      split; [assumption|]. split; [assumption|]. now rewrite Hfold.
    - apply unsafe_integer_text_reads_back; [apply Z.abs_nonneg | assumption]. }
  cbv zeta in *.
  set (text := if (Z.abs z <=? MAX_SAFE_INTEGER)%Z then decimal_digits (Z.abs z)
               else unsafe_integer_text (Z.abs z)) in *.
  destruct (Z.ltb_spec z 0) as [Hneg | Hpos]; intros Hplain.
  - assert (Hdigits : forallb Spec.is_decimal_digit text = true /\ text <> []).
    { apply integer_string_digits in Hplain as Hall.
      unfold Spec.integer_string in Hplain.
      cbn [Spec.unsigned_part N.eqb Pos.eqb orb] in *.
      split; [assumption|]. destruct text; [discriminate | discriminate]. }
    destruct Hdigits as [Hall Hne].
    destruct (digits_value text Hne Hall) as [Hint _].
    destruct (Htext Hint) as (_ & _ & Hread).
    unfold Spec.integer_value.
    cbn [Spec.unsigned_part N.eqb Pos.eqb orb].
    rewrite (F_opp _ _ Hread). f_equal. lia.
  - destruct (Htext Hplain) as (Hne & Hall & Hread).
    destruct (digits_value text Hne Hall) as [_ Hval].
    rewrite Hval, Hread. f_equal. lia.
Qed.

(** Every safe integer is printed in plain decimal digits. *)
Lemma safe_integer_plain (x : number) :
  safe_integer x -> Spec.plain_decimal x.
Proof.
  destruct x as [| |z]; cbn [safe_integer]; try contradiction.
  intros H. split.
  - cbn [integer_double]. now apply F_safe.
  - now apply String_integer.
Qed.

(** The round trip for a safe integer [z]: [parseInt(String(z), 10)] is
    [z]. *)
Lemma parseInt_String (z : Z) :
  safe_integer (Num z) -> parseInt (String (Num z)) 10 = Num z.
Proof. intros H. apply parseInt_String_plain. now apply safe_integer_plain. Qed.

End JSFacts.

(* ================================================================== *)
(** ** How the handlers run *)
(* ================================================================== *)

Section HandlerRuns.

Context {Db : Type} {store : ItemStore Db}.

Import App.

Lemma skipn_length_app {A} (l r : list A) : skipn (List.length l) (l ++ r) = r.
Proof. induction l as [|a l IH]; simpl; auto. Qed.

Lemma emitted_app (w w' : World Db) (es : list Event) :
  trace w' = trace w ++ es -> emitted w w' = es.
Proof. unfold emitted; intros ->; apply skipn_length_app. Qed.

Lemma emitted_same (w w' : World Db) : trace w' = trace w -> emitted w w' = [].
Proof. intros H; apply emitted_app; now rewrite app_nil_r. Qed.

Lemma emitted_refl (w : World Db) : emitted w w = [].
Proof. now apply emitted_same. Qed.

(** [loadItems] on either outcome of the fetch. *)
Lemma loadItems_run (w : World Db) :
  loadItems w =
  match fetchItems (db w) with
  | (Resolved value, d) =>
      (Resolved tt,
       {| db := d;
          view := {| name := name (view w); quantity := quantity (view w);
                     editingId := editingId (view w); items := value |};
          trace := trace w ++ [Called CallFetch true] |})
  | (Rejected err, d) =>
      (Resolved tt,
       {| db := d; view := view w;
          trace := trace w ++ [Called CallFetch false;
                               ConsoleLog [Text "Failed to fetch items"; Thrown err]] |})
  end.
Proof.
  unfold loadItems, try_catch, bind, await, setItems, set_view, console_log.
  destruct (fetchItems (db w)) as [[value | err] d]; cbn.
  - reflexivity.
  - now rewrite <- app_assoc.
Qed.

Lemma loadItems_resolves (w : World Db) : fst (loadItems w) = Resolved tt.
Proof.
  rewrite loadItems_run.
  destruct (fetchItems (db w)) as [[value | err] d]; reflexivity.
Qed.

(** [saveOrUpdate] on a form that one of the two guards turns away. *)
Lemma saveOrUpdate_rejected (c : State) (w : World Db) :
  Spec.rejected_input (name c) (quantity c) ->
  saveOrUpdate c w = (Resolved tt, w).
Proof.
  unfold saveOrUpdate, ret; intros [Hn | Hq].
  - rewrite Hn; reflexivity.
  - rewrite Hq; cbn. destruct (JS.truthy (JS.trim (name c))); reflexivity.
Qed.

Lemma saveOrUpdate_run (c : State) (x : JS.number) (w : World Db) :
  JS.trim (name c) <> [] ->
  JS.parseInt (quantity c) 10 = x ->
  JS.Number_isNaN x = false ->
  saveOrUpdate c w =
  match Obs.saved_request c x (db w) with
  | (Resolved _, d1) =>
      match fetchItems d1 with
      | (Resolved value, d2) =>
          (Resolved tt,
           {| db := d2;
              view := Obs.cleared (Obs.with_items value (view w));
              trace := trace w ++ [Called (Obs.saved_call c x) true;
                                   Called CallFetch true] |})
      | (Rejected err, d2) =>
          (Resolved tt,
           {| db := d2;
              view := Obs.cleared (view w);
              trace := trace w ++ [Called (Obs.saved_call c x) true;
                                   Called CallFetch false;
                                   ConsoleLog [Text "Failed to fetch items";
                                               Thrown err]] |})
      end
  | (Rejected err, d1) =>
      (Resolved tt,
       {| db := d1; view := view w;
          trace := trace w ++ [Called (Obs.saved_call c x) false;
                               ConsoleLog [Text "Failed to save/update item";
                                           Thrown err]] |})
  end.
Proof.
  intros Hn Hq Hx. unfold saveOrUpdate. rewrite Hq, Hx.
  destruct (JS.trim (name c)) as [|a t] eqn:Ht; [congruence|].
  cbn [JS.truthy negb].
  unfold Obs.saved_request, Obs.saved_call. rewrite Ht.
  unfold try_catch, bind, console_log, setName, setQuantity, setEditingId,
    set_view, Obs.cleared, Obs.with_items.
  destruct (editingId c) as [eid|].
  - unfold await at 1.
    destruct (updateItem (db w) eid (a :: t) x) as [[[] | err] d1]; cbn.
    + rewrite loadItems_run; cbn.
      destruct (fetchItems d1) as [[value | err] d2]; cbn;
        now rewrite <- app_assoc.
    + now rewrite <- app_assoc.
  - unfold await at 1.
    destruct (insertItem (db w) (a :: t) x) as [[[] | err] d1]; cbn.
    + rewrite loadItems_run; cbn.
      destruct (fetchItems d1) as [[value | err] d2]; cbn;
        now rewrite <- app_assoc.
    + now rewrite <- app_assoc.
Qed.

Lemma deleteAndAnswer_confirm_run (id : Z) (w : World Db) :
  deleteAndAnswer id "Delete" w =
  match deleteItem (db w) id with
  | (Resolved _, d1) =>
      match fetchItems d1 with
      | (Resolved value, d2) =>
          (Resolved tt,
           {| db := d2;
              view := if Obs.editing (view w) id
                      then Obs.cleared (Obs.with_items value (view w))
                      else Obs.with_items value (view w);
              trace := trace w ++ [Called (CallDelete id) true;
                                   Called CallFetch true] |})
      | (Rejected err, d2) =>
          (Resolved tt,
           {| db := d2;
              view := if Obs.editing (view w) id
                      then Obs.cleared (view w)
                      else view w;
              trace := trace w ++ [Called (CallDelete id) true;
                                   Called CallFetch false;
                                   ConsoleLog [Text "Failed to fetch items";
                                               Thrown err]] |})
      end
  | (Rejected err, d1) =>
      (Resolved tt,
       {| db := d1; view := view w;
          trace := trace w ++ [Called (CallDelete id) false;
                               ConsoleLog [Text "Failed to delete item";
                                           Thrown err]] |})
  end.
Proof.
  unfold deleteAndAnswer, requestDelete, press, confirmDelete.
  cbn [buttons find text onPress String.eqb Ascii.eqb Bool.eqb andb].
  unfold try_catch, bind, console_log, setName, setQuantity, setEditingId,
    set_view, ret, Obs.cleared, Obs.with_items.
  unfold await at 1.
  destruct (deleteItem (db w) id) as [[[] | err] d1]; cbn.
  - rewrite loadItems_run; cbn. unfold Obs.editing.
    destruct (fetchItems d1) as [[value | err] d2]; cbn;
      destruct (editingId (view w)) as [eid|]; cbn;
      try destruct (eid =? id)%Z; cbn;
      now rewrite <- app_assoc.
  - now rewrite <- app_assoc.
Qed.

Lemma deleteAndAnswer_cancel_run (id : Z) (w : World Db) :
  deleteAndAnswer id "Cancel" w = (Resolved tt, w).
Proof. reflexivity. Qed.

End HandlerRuns.

(* ================================================================== *)
(** ** Facts about the specification's store *)
(* ================================================================== *)

Module SpecStoreFacts.

Import SpecStore.

Lemma request_healthy {A} (d : Db) (run : list Item -> A * list Item) :
  healthy 1 d = true ->
  request d run =
  (Resolved (fst (run (rows d))),
   {| rows := snd (run (rows d)); faults := tl (faults d) |}).
Proof.
  unfold healthy, request.
  destruct (faults d) as [|[|] fs]; cbn; try discriminate;
    intros _; destruct (run (rows d)); reflexivity.
Qed.

Lemma request_outcome {A} (d : Db) (run : list Item -> A * list Item) :
  (healthy 1 d = true /\
   request d run = (Resolved (fst (run (rows d))),
                    {| rows := snd (run (rows d)); faults := tl (faults d) |}))
  \/
  (healthy 1 d = false /\
   request d run = (Rejected StoreFailure,
                    {| rows := rows d; faults := tl (faults d) |})).
Proof.
  destruct (healthy 1 d) eqn:H.
  - left; split; [reflexivity | now apply request_healthy].
  - right; split; [reflexivity|].
    unfold healthy, request in *.
    destruct (faults d) as [|[|] fs]; cbn in *; try discriminate; reflexivity.
Qed.

Lemma fresh_id_above (rs : list Item) (it : Item) :
  In it rs -> (Item.id it < fresh_id rs)%Z.
Proof.
  unfold fresh_id. induction rs as [|r rs IH]; cbn [map fold_right In]; [tauto|].
  intros [-> | Hin]; [lia|]. specialize (IH Hin). lia.
Qed.

(** The id the store assigns is carried by no row. *)
Lemma fresh_id_fresh (rs : list Item) : ~ In (fresh_id rs) (map Item.id rs).
Proof.
  intros Hin. apply in_map_iff in Hin as (it & Heq & Hin).
  pose proof (fresh_id_above rs it Hin). lia.
Qed.

Lemma unique_ids_insert (rs : list Item) (n : JS.jsstring) (q : JS.number) :
  unique_ids rs -> unique_ids (rs ++ [Item.mk (fresh_id rs) n q]).
Proof.
  unfold unique_ids. intros H. rewrite map_app. cbn [map Item.id].
  rewrite <- (rev_involutive (map Item.id rs ++ [fresh_id rs])).
  apply NoDup_rev. rewrite rev_app_distr. cbn [rev app].
  constructor.
  - rewrite <- in_rev. apply fresh_id_fresh.
  - now apply NoDup_rev.
Qed.

Lemma update_ids (id : Z) (n : JS.jsstring) (q : JS.number) (rs : list Item) :
  map Item.id
    (map (fun it => if (Item.id it =? id)%Z
                    then Item.mk (Item.id it) n q else it) rs)
  = map Item.id rs.
Proof.
  rewrite map_map. apply map_ext. intros it.
  destruct (Item.id it =? id)%Z; reflexivity.
Qed.

Lemma unique_ids_delete (id : Z) (rs : list Item) :
  unique_ids rs ->
  unique_ids (filter (fun it => negb (Item.id it =? id)%Z) rs).
Proof.
  unfold unique_ids. induction rs as [|r rs IH]; cbn; [auto|].
  intros H; inversion H as [|? ? Hnotin Hnd]; subst.
  destruct (Item.id r =? id)%Z; cbn; [auto|].
  constructor; [|auto].
  intros Hin; apply Hnotin.
  apply in_map_iff in Hin as (it & Heq & Hin).
  apply filter_In in Hin as [Hin _].
  apply in_map_iff; eauto.
Qed.

(** With unique ids, deleting an id that is present removes one row. *)
Lemma delete_removes_one (id : Z) (rs : list Item) :
  unique_ids rs -> In id (map Item.id rs) ->
  S (List.length (filter (fun it => negb (Item.id it =? id)%Z) rs))
  = List.length rs.
Proof.
  unfold unique_ids. induction rs as [|r rs IH]; cbn; [tauto|].
  intros H Hin; inversion H as [|? ? Hnotin Hnd]; subst.
  destruct (Z.eqb_spec (Item.id r) id) as [Heq | Hne]; cbn.
  - f_equal. subst id.
    assert (Hall : forall l, ~ In (Item.id r) (map Item.id l) ->
              filter (fun it => negb (Item.id it =? Item.id r)%Z) l = l).
    { induction l as [|x l IHl]; cbn; [auto|]. intros Hx.
      destruct (Z.eqb_spec (Item.id x) (Item.id r)) as [E|E]; cbn.
      - exfalso; apply Hx; left; exact E.
      - f_equal; apply IHl; tauto. }
    now rewrite Hall.
  - f_equal. apply IH; [assumption|].
    destruct Hin as [Hin | Hin]; [congruence | assumption].
Qed.

Lemma delete_keeps (id : Z) (rs : list Item) (it : Item) :
  In it (filter (fun x => negb (Item.id x =? id)%Z) rs) <->
  In it rs /\ Item.id it <> id.
Proof.
  rewrite filter_In. split; intros [Hin H]; split; auto.
  - destruct (Z.eqb_spec (Item.id it) id); [discriminate | assumption].
  - destruct (Z.eqb_spec (Item.id it) id); [contradiction | reflexivity].
Qed.

End SpecStoreFacts.

(* ================================================================== *)
(** ** The paths through the handlers *)
(* ================================================================== *)

Section GestureCases.

Context {Db : Type} {store : ItemStore Db}.

Import App.

(** Either the form is rejected and nothing happens, or it passes
    validation with some parsed quantity. *)
Lemma submit_cases (w : World Db) :
  (Spec.rejected_input (name (view w)) (quantity (view w)) /\
   submit w = (Resolved tt, w))
  \/
  (exists x, JS.trim (name (view w)) <> [] /\
             JS.parseInt (quantity (view w)) 10 = x /\
             JS.Number_isNaN x = false /\
             submit w = saveOrUpdate (view w) w).
Proof.
  destruct (JS.trim (name (view w))) as [|a t] eqn:Hn.
  - left. assert (H : Spec.rejected_input (name (view w)) (quantity (view w)))
      by (left; exact Hn).
    split; [exact H | now apply saveOrUpdate_rejected].
  - destruct (JS.Number_isNaN (JS.parseInt (quantity (view w)) 10)) eqn:Hx.
    + left. assert (H : Spec.rejected_input (name (view w)) (quantity (view w))).
      { right. destruct (JS.parseInt (quantity (view w)) 10);
          [reflexivity | discriminate | discriminate]. }
      split; [exact H | now apply saveOrUpdate_rejected].
    + right. exists (JS.parseInt (quantity (view w)) 10).
      repeat split; congruence.
Qed.

Lemma deleteAndAnswer_cases (id : Z) (answer : string) (w : World Db) :
  deleteAndAnswer id answer w = (Resolved tt, w) \/
  deleteAndAnswer id answer w = deleteAndAnswer id "Delete" w.
Proof.
  destruct (String.eqb_spec "Delete" answer) as [<- | Hne]; [now right|].
  left. unfold deleteAndAnswer, requestDelete, press, confirmDelete.
  cbn [buttons find text].
  destruct (String.eqb "Cancel" answer); [reflexivity|].
  destruct (String.eqb_spec "Delete" answer); [contradiction | reflexivity].
Qed.

End GestureCases.

Ltac emit :=
  cbn [fst snd App.db App.view App.trace] in *;
  repeat match goal with
    | |- context [App.emitted ?w (App.mkWorld ?d ?v (App.trace ?w ++ ?es))] =>
        rewrite (emitted_app w (App.mkWorld d v (App.trace w ++ es)) es eq_refl)
    | H : context [App.emitted ?w (App.mkWorld ?d ?v (App.trace ?w ++ ?es))] |- _ =>
        rewrite (emitted_app w (App.mkWorld d v (App.trace w ++ es)) es eq_refl) in H
    | |- context [App.emitted ?w (App.mkWorld ?d ?v (App.trace ?w))] =>
        rewrite (emitted_same w (App.mkWorld d v (App.trace w)) eq_refl)
    | H : context [App.emitted ?w (App.mkWorld ?d ?v (App.trace ?w))] |- _ =>
        rewrite (emitted_same w (App.mkWorld d v (App.trace w)) eq_refl) in H
    | |- context [App.emitted ?w ?w] => rewrite (emitted_refl w)
    | H : context [App.emitted ?w ?w] |- _ => rewrite (emitted_refl w) in H
    end;
  cbn [store_calls filter is_mutation In] in *.

(** Every way a gesture can run, one goal per path through its handler. *)
Ltac run_gesture g w :=
  destruct g as [| ?v | ?v | | ?item | ?id ?answer]; cbn [App.perform App.mount];
  [ rewrite (loadItems_run w);
    destruct (fetchItems (App.db w)) as [[?value | ?err] ?d] eqn:?Hfetch
  | unfold App.setName, App.set_view
  | unfold App.setQuantity, App.set_view
  | let q := fresh "q" in
    let Hn := fresh "Hn" in
    let Hq := fresh "Hq" in
    let Hrej := fresh "Hrej" in
    let Hx := fresh "Hx" in
    destruct (submit_cases w) as [[Hrej ->] | (q & Hn & Hq & Hx & ->)];
    [ | rewrite (saveOrUpdate_run (App.view w) q w Hn Hq Hx);
        destruct (Obs.saved_request (App.view w) q (App.db w))
          as [[[] | ?err] ?d] eqn:?Hreq;
        [ match goal with
          | |- context [fetchItems ?d1] =>
              destruct (fetchItems d1) as [[?value | ?err] ?d] eqn:?Hfetch
          end | ] ]
  | unfold App.startEdit, App.bind, App.setEditingId, App.setName,
      App.setQuantity, App.set_view
  | match goal with
    | |- context [App.deleteAndAnswer ?i ?a w] =>
        destruct (deleteAndAnswer_cases i a w) as [-> | ->];
        [ | rewrite (deleteAndAnswer_confirm_run i w);
            destruct (deleteItem (App.db w) i) as [[[] | ?err] ?d] eqn:?Hreq;
            [ match goal with
              | |- context [fetchItems ?d1] =>
                  destruct (fetchItems d1) as [[?value | ?err] ?d] eqn:?Hfetch
              end | ] ]
    end ];
  emit.

Ltac find_in := cbn [In]; solve [repeat (first [left; reflexivity | right])].

Ltac settle :=
  repeat match goal with
    | H : Obs.mutation_settled _ _ |- _ => destruct H as (?m & ?Hm & ?Hin)
    | H : In _ _ |- _ => cbn [In] in H
    | H : _ \/ _ |- _ => destruct H as [H | H]
    | H : False |- _ => destruct H
    | H : Called _ _ = Called _ _ |- _ => inversion H; clear H; subst
    | H : ConsoleLog _ = Called _ _ |- _ => discriminate H
    | H : is_mutation CallFetch = true |- _ => discriminate H
    | H : Obs.saved_call ?s _ = CallFetch |- _ =>
        exfalso; unfold Obs.saved_call in H;
        destruct (App.editingId s); discriminate H
    | H : CallFetch = Obs.saved_call ?s _ |- _ =>
        exfalso; unfold Obs.saved_call in H;
        destruct (App.editingId s); discriminate H
    end.

(* ================================================================== *)
(** ** The controller against any store *)
(* ================================================================== *)

Section ControllerClaims.

Context {Db : Type} {store : ItemStore Db}.

Import App.

(** C1, as amended: when the trimmed name is empty, or [parseInt] of the
    quantity text in base 10 is NaN, [submit()] settles at once: it issues
    no store request (neither insert nor update nor fetch), writes nothing
    to the console, and leaves the store handle and the whole controller
    state (name field, quantity field, editing flag, items list) as they
    were. *)
Theorem submit_rejected_input_is_noop (w : World Db) :
  Spec.rejected_input (name (view w)) (quantity (view w)) ->
  submit w = (Resolved tt, w) /\
  store_calls (emitted w (snd (submit w))) = [].
Proof.
  intros H. unfold submit at 1 2.
  rewrite (saveOrUpdate_rejected (view w) w H).
  split; [reflexivity|]. now emit.
Qed.

(** C5: when [submit()] runs on a form that passes validation and its
    store request (insert when idle-create, update of [editingId] when
    editing) resolves, the controller issues exactly that request followed
    by one fetch of the full list, takes the fetched list as its items
    (keeping the old list only if the fetch itself fails), sets both form
    fields to the empty string and sets [editingId] to null. *)
Theorem submit_success_refetches_and_resets
  (w : World Db) (q : JS.number) (d1 : Db) :
  JS.trim (name (view w)) <> [] ->
  JS.parseInt (quantity (view w)) 10 = q ->
  JS.Number_isNaN q = false ->
  Obs.saved_request (view w) q (db w) = (Resolved tt, d1) ->
  let w' := snd (submit w) in
  fst (submit w) = Resolved tt /\
  store_calls (emitted w w') = [Obs.saved_call (view w) q; CallFetch] /\
  db w' = snd (fetchItems d1) /\
  items (view w') = match fst (fetchItems d1) with
                    | Resolved value => value
                    | Rejected _ => items (view w)
                    end /\
  name (view w') = [] /\
  quantity (view w') = [] /\
  editingId (view w') = None.
Proof.
  intros Hn Hq Hx Hreq. unfold submit.
  rewrite (saveOrUpdate_run (view w) q w Hn Hq Hx), Hreq.
  destruct (fetchItems d1) as [[value | err] d2]; emit; repeat split.
Qed.

(** C9: the quantity text "7x" is not the decimal representation of an
    integer, yet with a name that is not blank [submit()] passes validation
    and sends the store the integer prefix 7 that base-10 [parseInt]
    returns: an insert when idle-create, an update when editing. *)
Theorem submit_accepts_digit_prefix (w : World Db) :
  JS.trim (name (view w)) <> [] ->
  quantity (view w) = JS.js "7x" ->
  Spec.integer_string (quantity (view w)) = false /\
  JS.parseInt (quantity (view w)) 10 = JS.Num 7 /\
  exists ok rest,
    emitted w (snd (submit w)) =
    Called (Obs.saved_call (view w) (JS.Num 7)) ok :: rest.
Proof.
  intros Hn Hq.
  assert (Hp : JS.parseInt (quantity (view w)) 10 = JS.Num 7)
    by (rewrite Hq; reflexivity).
  split; [rewrite Hq; reflexivity|]. split; [exact Hp|].
  unfold submit. rewrite (saveOrUpdate_run (view w) (JS.Num 7) w Hn Hp eq_refl).
  destruct (Obs.saved_request (view w) (JS.Num 7) (db w)) as [[[] | err] d1].
  - destruct (fetchItems d1) as [[value | err] d2]; emit; eauto.
  - emit; eauto.
Qed.

(** C10: when a delete is confirmed for an id that is not the one being
    edited (in particular when nothing is being edited), the name field,
    the quantity field and [editingId] are the same after the handler has
    run as before, whether or not the delete and the refresh succeed; of
    the controller state only the items list can differ. *)
Theorem delete_other_id_keeps_form (w : World Db) (id : Z) :
  editingId (view w) <> Some id ->
  let w' := snd (deleteAndAnswer id "Delete" w) in
  name (view w') = name (view w) /\
  quantity (view w') = quantity (view w) /\
  editingId (view w') = editingId (view w).
Proof.
  intros Hne. rewrite deleteAndAnswer_confirm_run.
  assert (He : Obs.editing (view w) id = false).
  { unfold Obs.editing. destruct (editingId (view w)) as [eid|]; [|reflexivity].
    destruct (Z.eqb_spec eid id); [congruence | reflexivity]. }
  rewrite He.
  destruct (deleteItem (db w) id) as [[[] | err] d1].
  - destruct (fetchItems d1) as [[value | err] d2]; emit; repeat split.
  - emit; repeat split.
Qed.

(** Every insert the screen can send carries a pre-trimmed, non-empty
    name and a quantity that is not NaN. *)
Lemma screen_inserts_are_trimmed (g : Gesture) (w : World Db)
  (n : JS.jsstring) (q : JS.number) (ok : bool) :
  In (Called (CallInsert n q) ok) (emitted w (snd (perform g w))) ->
  Spec.pre_trimmed n /\ n <> [] /\ q <> JS.NaN.
Proof.
  run_gesture g w; intros H; settle; try congruence.
  all: unfold Obs.saved_call in *; destruct (editingId (view w));
    try congruence;
    match goal with H : CallInsert _ _ = CallInsert _ _ |- _ =>
      inversion H; subst end;
    repeat split; try assumption;
    try (intros Hnan; rewrite Hnan in *; discriminate);
    apply JSFacts.trim_idem.
Qed.

(** Every update the screen can send carries a pre-trimmed, non-empty
    name and a quantity that is not NaN. *)
Lemma screen_updates_are_trimmed (g : Gesture) (w : World Db)
  (id : Z) (n : JS.jsstring) (q : JS.number) (ok : bool) :
  In (Called (CallUpdate id n q) ok) (emitted w (snd (perform g w))) ->
  Spec.pre_trimmed n /\ n <> [] /\ q <> JS.NaN.
Proof.
  run_gesture g w; intros H; settle; try congruence.
  all: unfold Obs.saved_call in *; destruct (editingId (view w));
    try congruence;
    match goal with H : CallUpdate _ _ _ = CallUpdate _ _ _ |- _ =>
      inversion H; subst end;
    repeat split; try assumption;
    try (intros Hnan; rewrite Hnan in *; discriminate);
    apply JSFacts.trim_idem.
Qed.

(** A form that is not rejected always reaches the store. *)
Lemma submit_accepted_input_calls_store (w : World Db) :
  ~ Spec.rejected_input (name (view w)) (quantity (view w)) ->
  exists ok rest,
    emitted w (snd (submit w)) =
    Called (Obs.saved_call (view w) (JS.parseInt (quantity (view w)) 10)) ok
      :: rest.
Proof.
  intros Hacc.
  destruct (submit_cases w) as [[Hrej _] | (q & Hn & Hq & Hx & ->)];
    [contradiction|].
  rewrite (saveOrUpdate_run (view w) q w Hn Hq Hx), Hq.
  destruct (Obs.saved_request (view w) q (db w)) as [[[] | err] d1].
  - destruct (fetchItems d1) as [[value | err] d2]; emit; eauto.
  - emit; eauto.
Qed.

(** C7: no gesture (opening the screen, typing, save, edit, delete with
    either answer) lets a store failure escape: its handler always
    settles normally.  Whenever one of its store requests (fetch, insert,
    update or delete) fails, the thrown error is written to the console.
    When the failing request is the insert, update or delete, the whole
    controller state (name field, quantity field, editing flag, items
    list) is what it was before; the same holds for a failing fetch run on
    its own by [loadItems]. *)
Theorem store_failures_are_caught_and_logged (g : Gesture) (w : World Db) :
  let w' := snd (perform g w) in
  fst (perform g w) = Resolved tt /\
  (forall c, In (Called c false) (emitted w w') -> Obs.logged (emitted w w')) /\
  (Obs.mutation_settled false (emitted w w') -> view w' = view w) /\
  (In (Called CallFetch false) (emitted w (snd (loadItems w))) ->
   view (snd (loadItems w)) = view w).
Proof.
  cbv zeta. split; [|split; [|split]].
  - run_gesture g w; reflexivity.
  - run_gesture g w; intros c H; settle;
      unfold Obs.logged; do 2 eexists; split; find_in.
  - run_gesture g w; intros H; settle; try discriminate; reflexivity.
  - rewrite (loadItems_run w).
    destruct (fetchItems (db w)) as [[value | err] d]; emit; intros H; settle.
    reflexivity.
Qed.

End ControllerClaims.

(* ================================================================== *)
(** ** The controller against the specification's store *)
(* ================================================================== *)

Section AgainstSpecStore.

Import App SpecStore.

Local Abbreviation W := (World Db).

Lemma fetch_resolved (d d2 : Db) (value : list Item) :
  fetchItems d = (Resolved value, d2) -> value = rows d /\ rows d2 = rows d.
Proof.
  cbn [fetchItems store]. unfold fetchAll.
  destruct (SpecStoreFacts.request_outcome d (fun rs => (rs, rs)))
    as [[_ ->] | [_ ->]]; intros H; inversion H; cbn; auto.
Qed.

Lemma fetch_rows (d : Db) : rows (snd (fetchItems d)) = rows d.
Proof.
  cbn [fetchItems store]. unfold fetchAll.
  destruct (SpecStoreFacts.request_outcome d (fun rs => (rs, rs)))
    as [[_ ->] | [_ ->]]; reflexivity.
Qed.

Lemma saved_request_unique (s : State) (q : JS.number) (d d1 : Db) (r : Outcome unit) :
  Obs.saved_request s q d = (r, d1) ->
  unique_ids (rows d) -> unique_ids (rows d1).
Proof.
  unfold Obs.saved_request. cbn [insertItem updateItem store].
  unfold insert, update.
  destruct (editingId s) as [eid|];
    match goal with
    | |- request d ?run = _ -> _ =>
        destruct (SpecStoreFacts.request_outcome d run) as [[_ ->] | [_ ->]]
    end; intros H; inversion H; subst; cbn; auto.
  - unfold unique_ids. now rewrite SpecStoreFacts.update_ids.
  - apply SpecStoreFacts.unique_ids_insert.
Qed.

Lemma delete_unique (id : Z) (d d1 : Db) (r : Outcome unit) :
  deleteItem d id = (r, d1) ->
  unique_ids (rows d) -> unique_ids (rows d1).
Proof.
  cbn [deleteItem store]. unfold delete.
  match goal with
  | |- request d ?run = _ -> _ =>
      destruct (SpecStoreFacts.request_outcome d run) as [[_ ->] | [_ ->]]
  end; intros H; inversion H; subst; cbn; auto.
  apply SpecStoreFacts.unique_ids_delete.
Qed.

(** C2, as amended: with the form in idle-create ([editingId] null), a
    name that is not blank and a quantity text that is the decimal
    representation of a safe integer (at most 2^53 - 1 in absolute value),
    [submit()] requests exactly one mutation, the insert of the trimmed
    name with that integer.  When the store accepts that insert, exactly
    one Item is added: the rows afterwards are the rows before followed by
    one new Item with that name, that quantity and an id no row carried
    before, so the item count grows by exactly one. *)
Theorem submit_creates_exactly_one_item (w : W) :
  editingId (view w) = None ->
  JS.trim (name (view w)) <> [] ->
  Spec.integer_string (quantity (view w)) = true ->
  JS.safe_integer (JS.Num (Spec.integer_value (quantity (view w)))) ->
  let w' := snd (submit w) in
  let created :=
    Item.mk (fresh_id (rows (db w)))
            (JS.trim (name (view w)))
            (JS.Num (Spec.integer_value (quantity (view w)))) in
  filter is_mutation (store_calls (emitted w w')) =
    [CallInsert (Item.name created) (Item.quantity created)] /\
  (In (Called (CallInsert (Item.name created) (Item.quantity created)) true)
      (emitted w w') ->
   rows (db w') = rows (db w) ++ [created] /\
   ~ In (Item.id created) (map Item.id (rows (db w))) /\
   List.length (rows (db w')) = S (List.length (rows (db w)))).
Proof.
  intros Hidle Hn Hint Hsafe. cbv zeta.
  pose proof (JSFacts.integer_string_parse _ Hint) as Hq.
  rewrite (JSFacts.F_safe _ Hsafe) in Hq.
  unfold submit.
  rewrite (saveOrUpdate_run (view w) _ w Hn Hq eq_refl).
  unfold Obs.saved_request, Obs.saved_call. rewrite Hidle.
  cbn [insertItem store Item.name Item.quantity Item.id]. unfold insert.
  match goal with
  | |- context [request (db w) ?run] =>
      destruct (SpecStoreFacts.request_outcome (db w) run) as [[_ ->] | [_ ->]]
  end; cbn [fst snd].
  - match goal with
    | |- context [fetchItems ?d1] =>
        pose proof (fetch_rows d1) as Hrows;
        destruct (fetchItems d1) as [[value | err] d2]
    end; emit; cbn [rows] in *; rewrite Hrows.
    all: split; [reflexivity|].
    all: intros _; split; [reflexivity|].
    all: split; [apply SpecStoreFacts.fresh_id_fresh|].
    all: rewrite length_app; cbn; lia.
  - emit. split; [reflexivity|].
    intros H; settle.
Qed.

(** C3, as amended: for an item whose name is already trimmed and not
    empty and whose quantity is a safe integer (at most 2^53 - 1 in
    absolute value), [startEdit(item)] followed at once by [submit()]
    requests exactly one mutation,
    [update(item.id, item.name, item.quantity)]: the quantity survives
    [String] then [parseInt], the name survives [trim].  The number of
    rows in the store is unchanged, whether or not the update succeeds. *)
Theorem edit_then_submit_sends_same_item (w : W) (item : Item) :
  Spec.pre_trimmed (Item.name item) ->
  Item.name item <> [] ->
  JS.safe_integer (Item.quantity item) ->
  let w' := snd (bind (startEdit item) (fun _ => submit) w) in
  filter is_mutation (store_calls (emitted w w')) =
    [CallUpdate (Item.id item) (Item.name item) (Item.quantity item)] /\
  List.length (rows (db w')) = List.length (rows (db w)).
Proof.
  intros Htrim Hne Hsafe. cbv zeta.
  destruct item as [id nm [| |z]]; cbn [Item.id Item.name Item.quantity] in *;
    [destruct Hsafe | destruct Hsafe |].
  pose proof (JSFacts.safe_integer_plain _ Hsafe) as Hplain.
  set (w1 := {| db := db w;
                view := {| name := nm; quantity := JS.String (JS.Num z);
                           editingId := Some id; items := items (view w) |};
                trace := trace w |}).
  change (bind (startEdit (Item.mk id nm (JS.Num z))) (fun _ => submit) w)
    with (saveOrUpdate (view w1) w1).
  assert (Hn : JS.trim (name (view w1)) <> [])
    by (unfold w1; cbn [view name]; rewrite Htrim; exact Hne).
  pose proof (JSFacts.parseInt_String_plain (JS.Num z) Hplain
              : JS.parseInt (quantity (view w1)) 10 = JS.Num z) as Hq.
  rewrite (saveOrUpdate_run (view w1) (JS.Num z) w1 Hn Hq eq_refl).
  unfold Obs.saved_request, Obs.saved_call.
  cbn [view w1 editingId name db trace]. rewrite Htrim.
  cbn [updateItem store]. unfold update.
  match goal with
  | |- context [request (db w) ?run] =>
      destruct (SpecStoreFacts.request_outcome (db w) run) as [[_ ->] | [_ ->]]
  end; cbn [fst snd].
  - match goal with
    | |- context [fetchItems ?d1] =>
        pose proof (fetch_rows d1) as Hrows;
        destruct (fetchItems d1) as [[value | err] d2]
    end; emit; cbn [rows] in *; rewrite Hrows, length_map; auto.
  - emit. auto.
Qed.

(** C4: after [requestDelete(id)], confirming always requests
    [delete(id)] first.  When the store accepts it, the handler goes on to
    fetch the list; the store keeps exactly the rows whose id is not [id]
    (so, ids being unique, one row fewer when [id] was present); the form
    is cleared and the controller returns to idle-create when [id] is the
    id being edited, and form fields and editing flag are untouched when it
    is not.  Answering "Cancel" instead changes nothing at all: store,
    controller state and trace are as before. *)
Theorem confirm_delete_removes_that_item (w : W) (id : Z) :
  let w' := snd (deleteAndAnswer id "Delete" w) in
  (exists ok rest, emitted w w' = Called (CallDelete id) ok :: rest) /\
  (In (Called (CallDelete id) true) (emitted w w') ->
   store_calls (emitted w w') = [CallDelete id; CallFetch] /\
   (forall it,
      In it (rows (db w')) <-> In it (rows (db w)) /\ Item.id it <> id) /\
   (unique_ids (rows (db w)) -> In id (map Item.id (rows (db w))) ->
    S (List.length (rows (db w'))) = List.length (rows (db w))) /\
   (editingId (view w) = Some id ->
    Obs.form (view w') = ([], [], None)) /\
   (editingId (view w) <> Some id ->
    Obs.form (view w') = Obs.form (view w))) /\
  deleteAndAnswer id "Cancel" w = (Resolved tt, w).
Proof.
  cbv zeta.
  rewrite deleteAndAnswer_confirm_run.
  cbn [deleteItem store]. unfold delete.
  assert (Hed : editingId (view w) = Some id -> Obs.editing (view w) id = true).
  { unfold Obs.editing; intros ->. apply Z.eqb_refl. }
  assert (Hnot : editingId (view w) <> Some id -> Obs.editing (view w) id = false).
  { unfold Obs.editing. destruct (editingId (view w)) as [eid|]; [|reflexivity].
    intros Hne. destruct (Z.eqb_spec eid id); [congruence | reflexivity]. }
  match goal with
  | |- context [request (db w) ?run] =>
      destruct (SpecStoreFacts.request_outcome (db w) run) as [[_ ->] | [_ ->]]
  end; cbn [fst snd].
  - match goal with
    | |- context [fetchItems ?d1] =>
        pose proof (fetch_rows d1) as Hrows;
        destruct (fetchItems d1) as [[value | err] d2]
    end; emit; cbn [rows] in *; rewrite Hrows.
    all: split; [eauto|]. all: split; [|reflexivity]. all: intros _.
    all: split; [reflexivity|].
    all: split; [intros it; apply SpecStoreFacts.delete_keeps|].
    all: split; [intros Hu Hin; now apply SpecStoreFacts.delete_removes_one|].
    all: split; [intros H; rewrite (Hed H); reflexivity|].
    all: intros H; rewrite (Hnot H); reflexivity.
  - emit. split; [eauto|]. split; [|reflexivity].
    intros H; settle.
Qed.

(** C6, as amended: after any gesture in which a mutation (insert, update
    or delete) succeeded and the re-fetch that follows it succeeded too,
    the items list the controller holds is exactly the list of rows the
    store holds: nothing stale, and no id twice as long as the store's ids
    were unique. *)
Theorem items_equal_store_after_refetch (g : Gesture) (w : W) :
  let w' := snd (perform g w) in
  Obs.mutation_settled true (emitted w w') ->
  In (Called CallFetch true) (emitted w w') ->
  items (view w') = rows (db w') /\
  (unique_ids (rows (db w)) -> unique_ids (items (view w'))).
Proof.
  cbv zeta.
  run_gesture g w; intros Hm Hf; settle; try discriminate.
  all: destruct (fetch_resolved _ _ _ Hfetch) as [-> Hrows].
  all: try match goal with
         | |- context [Obs.editing ?s ?i] => destruct (Obs.editing s i)
         end.
  all: split; [cbn; now rewrite Hrows|].
  all: intros Hu; cbn; eauto using saved_request_unique, delete_unique.
Qed.

End AgainstSpecStore.

(* ================================================================== *)
(** ** The claims on concrete inputs *)
(* ================================================================== *)

Section Instances.

Import App SpecStore.

(** The specification's scenario: insert ("Apples", "5"); edit it to
    ("Apples", "7"); delete it. *)
Example scenario_insert :
  snd (submit apples_5) =
  {| db := {| rows := [apple_item]; faults := [] |};
     view := {| name := []; quantity := []; editingId := None;
                items := [apple_item] |};
     trace := [Called (CallInsert (JS.js "Apples") (JS.Num 5)) true;
               Called CallFetch true] |}.
Proof. reflexivity. Qed.

Example scenario_edit_and_delete :
  let w1 := snd (submit apples_5) in
  let w2 := snd (startEdit apple_item w1) in
  let w3 := snd (setQuantity (JS.js "7") w2) in
  let w4 := snd (submit w3) in
  let w5 := snd (deleteAndAnswer 1 "Delete" w4) in
  items (view w4) = [Item.mk 1 (JS.js "Apples") (JS.Num 7)] /\
  rows (db w4) = [Item.mk 1 (JS.js "Apples") (JS.Num 7)] /\
  items (view w5) = [] /\ rows (db w5) = [].
Proof. vm_compute. repeat split. Qed.

(** C1, as stated, fails: with the name "Apples" and the quantity text
    "7x" the input is invalid in the specification's sense (the quantity
    is not an integer string), yet [submit()] sends an insert and a fetch
    to the store and changes the controller state. *)
Lemma submit_stores_non_integer_quantity :
  Spec.invalid_input (name (view apples_7x)) (quantity (view apples_7x)) /\
  store_calls (emitted apples_7x (snd (submit apples_7x))) =
    [CallInsert (JS.js "Apples") (JS.Num 7); CallFetch] /\
  view (snd (submit apples_7x)) <> view apples_7x.
Proof.
  split; [right; reflexivity|]. split; [reflexivity|].
  vm_compute. discriminate.
Qed.

Lemma submit_rejected_input_is_noop_witness :
  Spec.rejected_input (name (view blank_name_form))
                      (quantity (view blank_name_form)) /\
  submit blank_name_form = (Resolved tt, blank_name_form).
Proof.
  assert (H : Spec.rejected_input (name (view blank_name_form))
                                  (quantity (view blank_name_form)))
    by (left; reflexivity).
  split; [exact H|].
  exact (proj1 (submit_rejected_input_is_noop blank_name_form H)).
Defined.

(** C2, as stated, fails: with the name "Apples" and the quantity text
    "9007199254740993" (an integer, 2^53 + 1) typed in idle-create,
    [submit()] adds one Item whose quantity is 9007199254740992, a
    double, not the integer that was typed. *)
Lemma submit_rounds_large_quantity :
  editingId (view apples_2p53_plus_1) = None /\
  JS.trim (name (view apples_2p53_plus_1)) = JS.js "Apples" /\
  Spec.integer_string (quantity (view apples_2p53_plus_1)) = true /\
  Spec.integer_value (quantity (view apples_2p53_plus_1)) = 9007199254740993%Z /\
  rows (db (snd (submit apples_2p53_plus_1)))
    = [Item.mk 1 (JS.js "Apples") (JS.Num 9007199254740992)].
Proof. vm_compute. repeat split. Qed.

Lemma submit_creates_exactly_one_item_witness :
  editingId (view apples_5) = None /\
  JS.trim (name (view apples_5)) <> [] /\
  Spec.integer_string (quantity (view apples_5)) = true /\
  JS.safe_integer (JS.Num (Spec.integer_value (quantity (view apples_5)))) /\
  rows (db (snd (submit apples_5))) = rows (db apples_5) ++ [apple_item].
Proof.
  assert (Hn : JS.trim (name (view apples_5)) <> [])
    by (vm_compute; discriminate).
  assert (Hs : JS.safe_integer
                 (JS.Num (Spec.integer_value (quantity (view apples_5)))))
    by (vm_compute; split; discriminate).
  pose proof (submit_creates_exactly_one_item apples_5 eq_refl Hn eq_refl Hs)
    as T.
  cbv zeta in T. destruct T as (_ & Hadded).
  split; [reflexivity|]. split; [exact Hn|]. split; [reflexivity|].
  split; [exact Hs|].
  exact (proj1 (Hadded (or_introl eq_refl))).
Defined.

(** C3, as stated, fails.  Typing "a" and "1000000000000000000000" and
    submitting stores the Item {1, "a", 1e21}; [startEdit] of that Item
    puts "1e+21" in the quantity field, and [submit()] then requests
    [update(1, "a", 1)]: the quantity sent is 1, not the stored one.
    Likewise, for a stored Item whose name is " a " the update carries the
    trimmed name "a", not the stored one. *)
Lemma edit_then_submit_changes_the_item :
  (rows (db (snd (submit bulk_form))) = [bulk_item] /\
   JS.String (Item.quantity bulk_item) = JS.js "1e+21" /\
   store_calls
     (emitted (snd (submit bulk_form))
        (snd (bind (startEdit bulk_item) (fun _ => submit)
                (snd (submit bulk_form)))))
   = [CallUpdate 1 (JS.js "a") (JS.Num 1); CallFetch] /\
   JS.Num 1 <> Item.quantity bulk_item)
  /\
  (In padded_item (rows (db stocked_padded)) /\
   store_calls
     (emitted stocked_padded
        (snd (bind (startEdit padded_item) (fun _ => submit) stocked_padded)))
   = [CallUpdate 1 (JS.js "a") (JS.Num 5); CallFetch] /\
   JS.js "a" <> Item.name padded_item).
Proof.
  split.
  - split; [vm_compute; reflexivity|]. split; [vm_compute; reflexivity|].
    split; [vm_compute; reflexivity|]. vm_compute. discriminate.
  - split; [left; reflexivity|]. split; [reflexivity|].
    vm_compute. discriminate.
Qed.

Lemma edit_then_submit_sends_same_item_witness :
  Spec.pre_trimmed (Item.name apple_item) /\
  Item.name apple_item <> [] /\
  JS.safe_integer (Item.quantity apple_item) /\
  filter is_mutation
    (store_calls
       (emitted stocked
          (snd (bind (startEdit apple_item) (fun _ => submit) stocked))))
  = [CallUpdate 1 (JS.js "Apples") (JS.Num 5)].
Proof.
  assert (Ht : Spec.pre_trimmed (Item.name apple_item)) by reflexivity.
  assert (Hn : Item.name apple_item <> []) by (vm_compute; discriminate).
  assert (Hs : JS.safe_integer (Item.quantity apple_item))
    by (vm_compute; split; discriminate).
  split; [exact Ht|]. split; [exact Hn|]. split; [exact Hs|].
  exact (proj1 (edit_then_submit_sends_same_item stocked apple_item Ht Hn Hs)).
Defined.

Lemma confirm_delete_removes_that_item_witness :
  In (Called (CallDelete 1) true)
     (emitted editing_apples (snd (deleteAndAnswer 1 "Delete" editing_apples))) /\
  rows (db (snd (deleteAndAnswer 1 "Delete" editing_apples))) = [pear_item] /\
  Obs.form (view (snd (deleteAndAnswer 1 "Delete" editing_apples)))
    = ([], [], None).
Proof.
  assert (Hin : In (Called (CallDelete 1) true)
                  (emitted editing_apples
                     (snd (deleteAndAnswer 1 "Delete" editing_apples))))
    by (left; reflexivity).
  pose proof (confirm_delete_removes_that_item editing_apples 1) as T.
  cbv zeta in T. destruct T as (_ & Hdone & _).
  destruct (Hdone Hin) as (_ & _ & _ & Hform & _).
  split; [exact Hin|]. split; [reflexivity|].
  exact (Hform eq_refl).
Defined.

Lemma submit_success_refetches_and_resets_witness :
  JS.trim (name (view apples_5)) <> [] /\
  JS.parseInt (quantity (view apples_5)) 10 = JS.Num 5 /\
  Obs.form (view (snd (submit apples_5))) = ([], [], None) /\
  items (view (snd (submit apples_5))) = [apple_item].
Proof.
  assert (Hn : JS.trim (name (view apples_5)) <> [])
    by (vm_compute; discriminate).
  pose proof (submit_success_refetches_and_resets apples_5 (JS.Num 5)
                {| rows := [apple_item]; faults := [] |}
                Hn eq_refl eq_refl eq_refl) as T.
  cbv zeta in T. destruct T as (_ & _ & _ & Hitems & Hname & Hqty & Hed).
  split; [exact Hn|]. split; [reflexivity|]. split.
  - unfold Obs.form. rewrite Hname, Hqty, Hed. reflexivity.
  - exact Hitems.
Defined.

(** C6, as stated, fails: "Apples", "5" is submitted, the insert succeeds
    and the fetch that follows fails; the store then holds the new Item
    while the controller's items list is still empty. *)
Lemma items_stale_when_refetch_fails :
  Obs.mutation_settled true
    (emitted apples_5_fetch_fails (snd (perform PressSave apples_5_fetch_fails))) /\
  rows (db (snd (perform PressSave apples_5_fetch_fails))) = [apple_item] /\
  items (view (snd (perform PressSave apples_5_fetch_fails))) = [] /\
  items (view (snd (perform PressSave apples_5_fetch_fails)))
    <> rows (db (snd (perform PressSave apples_5_fetch_fails))).
Proof.
  split.
  - exists (CallInsert (JS.js "Apples") (JS.Num 5)).
    split; [reflexivity | left; reflexivity].
  - split; [reflexivity|]. split; [reflexivity|]. vm_compute. discriminate.
Qed.

Lemma items_equal_store_after_refetch_witness :
  Obs.mutation_settled true
    (emitted apples_5 (snd (perform PressSave apples_5))) /\
  In (Called CallFetch true)
    (emitted apples_5 (snd (perform PressSave apples_5))) /\
  items (view (snd (perform PressSave apples_5)))
    = rows (db (snd (perform PressSave apples_5))).
Proof.
  assert (Hm : Obs.mutation_settled true
                 (emitted apples_5 (snd (perform PressSave apples_5)))).
  { exists (CallInsert (JS.js "Apples") (JS.Num 5)).
    split; [reflexivity | left; reflexivity]. }
  assert (Hf : In (Called CallFetch true)
                 (emitted apples_5 (snd (perform PressSave apples_5))))
    by (right; left; reflexivity).
  split; [exact Hm|]. split; [exact Hf|].
  exact (proj1 (items_equal_store_after_refetch PressSave apples_5 Hm Hf)).
Defined.

Lemma store_failures_are_caught_and_logged_witness :
  Obs.mutation_settled false
    (emitted apples_5_insert_fails
       (snd (perform PressSave apples_5_insert_fails))) /\
  fst (perform PressSave apples_5_insert_fails) = Resolved tt /\
  view (snd (perform PressSave apples_5_insert_fails))
    = view apples_5_insert_fails.
Proof.
  assert (Hm : Obs.mutation_settled false
                 (emitted apples_5_insert_fails
                    (snd (perform PressSave apples_5_insert_fails)))).
  { exists (CallInsert (JS.js "Apples") (JS.Num 5)).
    split; [reflexivity | left; reflexivity]. }
  pose proof (store_failures_are_caught_and_logged
                PressSave apples_5_insert_fails) as T.
  cbv zeta in T. destruct T as (Hres & _ & Hview & _).
  split; [exact Hm|]. split; [exact Hres | exact (Hview Hm)].
Defined.

(** [saveItem], which the screen binds to no control, passes the name as
    typed: with the name " a " and the quantity "1" in the form it
    validates the trimmed name but would send the store [insert(" a ", 1)],
    a name that is not equal to its own trim. *)
Example saveItem_sends_untrimmed_name :
  store_calls
    (emitted padded_name_form
       (snd (saveItem (view padded_name_form) padded_name_form)))
  = [CallInsert (JS.js " a ") (JS.Num 1); CallFetch] /\
  ~ Spec.pre_trimmed (JS.js " a ") /\
  rows (db (snd (saveItem (view padded_name_form) padded_name_form)))
  = [Item.mk 1 (JS.js " a ") (JS.Num 1)].
Proof.
  split; [reflexivity|]. split; [|reflexivity].
  unfold Spec.pre_trimmed. vm_compute. discriminate.
Qed.

Lemma submit_accepts_digit_prefix_witness :
  JS.trim (name (view apples_7x)) <> [] /\
  quantity (view apples_7x) = JS.js "7x" /\
  rows (db (snd (submit apples_7x)))
    = [Item.mk 1 (JS.js "Apples") (JS.Num 7)] /\
  Spec.integer_string (quantity (view apples_7x)) = false.
Proof.
  assert (Hn : JS.trim (name (view apples_7x)) <> [])
    by (vm_compute; discriminate).
  split; [exact Hn|]. split; [reflexivity|]. split; [reflexivity|].
  exact (proj1 (submit_accepts_digit_prefix apples_7x Hn eq_refl)).
Defined.

Lemma delete_other_id_keeps_form_witness :
  editingId (view editing_apples) <> Some 2%Z /\
  Obs.form (view (snd (deleteAndAnswer 2 "Delete" editing_apples)))
    = Obs.form (view editing_apples) /\
  rows (db (snd (deleteAndAnswer 2 "Delete" editing_apples))) = [apple_item].
Proof.
  assert (Hne : editingId (view editing_apples) <> Some 2%Z)
    by (vm_compute; discriminate).
  pose proof (delete_other_id_keeps_form editing_apples 2 Hne) as T.
  cbv zeta in T. destruct T as (Hname & Hqty & Hed).
  split; [exact Hne|]. split; [|reflexivity].
  unfold Obs.form. rewrite Hname, Hqty, Hed. reflexivity.
Defined.

End Instances.

(* ================================================================== *)
(** ** More about the quantity text *)
(* ================================================================== *)

Module QuantityFacts.

Import JS.

Lemma radix10_not_digit (c : code_unit) :
  Spec.is_decimal_digit c = false -> radix_digit 10 c = None.
Proof.
  unfold radix_digit, digit_value, Spec.is_decimal_digit. intros H. rewrite H.
  destruct ((0x61 <=? c) && (c <=? 0x7A))%N eqn:Hl.
  - apply andb_true_iff in Hl as [Hl _]. apply N.leb_le in Hl.
    destruct (Z.ltb_spec (Z.of_N c - 0x61 + 10) 10); [lia | reflexivity].
  - destruct ((0x41 <=? c) && (c <=? 0x5A))%N eqn:Hu; [|reflexivity].
    apply andb_true_iff in Hu as [Hu _]. apply N.leb_le in Hu.
    destruct (Z.ltb_spec (Z.of_N c - 0x41 + 10) 10); [lia | reflexivity].
Qed.

Lemma leading_digits_nil_iff (s : jsstring) :
  leading_digits 10 s = [] <->
  match s with c :: _ => Spec.is_decimal_digit c = false | [] => True end.
Proof.
  destruct s as [|c s]; cbn [leading_digits]; [tauto|].
  destruct (Spec.is_decimal_digit c) eqn:Hc.
  - rewrite (JSFacts.digit_radix10 c Hc). split; discriminate.
  - rewrite (radix10_not_digit c Hc). tauto.
Qed.

(** [parseInt(s, 10)] is a number exactly when the text starts, after
    white space and one optional sign, with a decimal digit. *)
Lemma parseInt_number_iff (s : jsstring) :
  parseInt s 10 <> NaN <-> Session.starts_with_digit s = true.
Proof.
  rewrite JSFacts.parseInt_NaN_iff, leading_digits_nil_iff.
  unfold Session.starts_with_digit.
  destruct (Spec.unsigned_part (trimStart s)) as [|c t].
  - split; [tauto | discriminate].
  - destruct (Spec.is_decimal_digit c); split; congruence.
Qed.

Lemma leading_digits_stop (ds rest : jsstring) (k : code_unit) :
  forallb Spec.is_decimal_digit ds = true ->
  Spec.is_decimal_digit k = false ->
  leading_digits 10 (ds ++ k :: rest) = leading_digits 10 ds.
Proof.
  intros Hds Hk. induction ds as [|d ds IH]; cbn [app leading_digits].
  - now rewrite (radix10_not_digit k Hk).
  - cbn [forallb] in Hds. apply andb_true_iff in Hds as [Hd Hds].
    rewrite (JSFacts.digit_radix10 d Hd). f_equal. now apply IH.
Qed.

(** What follows the digits of an integer text is not read. *)
Lemma parseInt_ignores_the_rest (ds rest : jsstring) (k : code_unit) :
  Spec.integer_string ds = true ->
  Spec.is_decimal_digit k = false ->
  parseInt (ds ++ k :: rest) 10 = parseInt ds 10.
Proof.
  intros Hint Hk.
  pose proof (JSFacts.integer_string_digits ds Hint) as Hall.
  rewrite !JSFacts.parseInt_base10.
  destruct ds as [|c t]; [discriminate|].
  assert (Hws : is_white_space c = false).
  { cbn [Spec.unsigned_part] in Hall.
    destruct ((c =? 0x2B) || (c =? 0x2D))%N eqn:Hs.
    - now apply JSFacts.sign_not_space.
    - cbn [forallb] in Hall. apply andb_true_iff in Hall as [Hc _].
      now apply JSFacts.digit_not_space. }
  change ((c :: t) ++ k :: rest) with (c :: (t ++ k :: rest)).
  rewrite !(JSFacts.trimStart_fixed c _ Hws).
  cbn [sign_of Spec.unsigned_part] in *.
  destruct ((c =? 0x2B) || (c =? 0x2D))%N.
  - now rewrite (leading_digits_stop t rest k Hall Hk).
  - change (c :: t ++ k :: rest) with ((c :: t) ++ k :: rest).
    now rewrite (leading_digits_stop (c :: t) rest k Hall Hk).
Qed.

(** From 2^1024 on, the Number value of an integer is an infinity. *)
Lemma F_overflows (z : Z) :
  (2 ^ 1024 <= Z.abs z)%Z -> F z = Infinity (z <? 0)%Z.
Proof.
  intros Hbig. unfold F.
  assert (H53 : (2 ^ 53 < 2 ^ 1024)%Z) by (apply Z.pow_lt_mono_r; lia).
  destruct (Z.ltb_spec (Z.abs z) (2 ^ 53)) as [Hlt | _]; [lia|].
  set (m := Z.abs z) in *.
  assert (Hm : (0 < m)%Z) by (pose proof (Z.pow_pos_nonneg 2 1024); lia).
  pose proof (Z.log2_spec m Hm) as [Hlo Hhi].
  assert (Hlog : (1024 <= Z.log2 m)%Z).
  { apply Z.log2_le_pow2; assumption. }
  set (e := (Z.log2 m - 52)%Z).
  assert (He : (0 <= e)%Z) by (unfold e; lia).
  assert (Hsplit : (2 ^ Z.log2 m = 2 ^ 52 * 2 ^ e)%Z).
  { unfold e. rewrite <- Z.pow_add_r by lia. f_equal. lia. }
  assert (Hpe : (0 < 2 ^ e)%Z) by (apply Z.pow_pos_nonneg; lia).
  assert (Hq : (2 ^ 52 <= m / 2 ^ e)%Z).
  { apply Z.div_le_lower_bound; [assumption|]. lia. }
  assert (Hq' : forall q', (m / 2 ^ e <= q')%Z -> (2 ^ 1024 <= q' * 2 ^ e)%Z).
  { intros q' Hle.
    assert (H1024 : (2 ^ 1024 <= 2 ^ Z.log2 m)%Z)
      by (apply Z.pow_le_mono_r; lia).
    nia. }
  match goal with
  | |- (if (?v <? 2 ^ 1024)%Z then _ else _) = _ =>
      destruct (Z.ltb_spec v (2 ^ 1024)) as [Hv | _]; [exfalso | reflexivity]
  end.
  revert Hv.
  destruct (m mod 2 ^ e <? 2 ^ (e - 1))%Z;
    [|destruct (2 ^ (e - 1) <? m mod 2 ^ e)%Z;
      [|destruct (Z.even (m / 2 ^ e))]];
    intros Hv;
    match type of Hv with
    | (?q' * _ < _)%Z => specialize (Hq' q' ltac:(lia))
    end; lia.
Qed.

End QuantityFacts.

(* ================================================================== *)
(** ** More of the controller, against any store *)
(* ================================================================== *)

Section ControllerConduct.

Context {Db : Type} {store : ItemStore Db}.

Import App Session.

Lemma saved_call_is_mutation (s : State) (q : JS.number) :
  is_mutation (Obs.saved_call s q) = true.
Proof. unfold Obs.saved_call. destruct (editingId s); reflexivity. Qed.

Lemma rejected_input_iff (n q : JS.jsstring) :
  Spec.rejected_input n q <->
  ~ (Spec.blank n = false /\ starts_with_digit q = true).
Proof.
  unfold Spec.rejected_input.
  rewrite JSFacts.trim_nil_iff_blank.
  pose proof (QuantityFacts.parseInt_number_iff q) as Hq.
  destruct (Spec.blank n); destruct (starts_with_digit q);
    destruct (JS.parseInt q 10) eqn:Hp; split; intros H;
    try tauto; try (right; reflexivity); try (left; reflexivity);
    try (intros [? ?]; discriminate);
    try (exfalso; apply H; split; reflexivity);
    try (destruct H as [H | H]; discriminate).
  all: exfalso; destruct Hq as [Hq1 Hq2];
    first [ specialize (Hq1 ltac:(discriminate)); discriminate
          | apply (Hq2 eq_refl); reflexivity ].
Qed.

(** X1: [submit()] reaches the store exactly when the name holds something
    other than white space and the quantity text, after leading white space
    and one optional sign, starts with a decimal digit. *)
Theorem submit_reaches_store_iff (w : World Db) :
  store_calls (emitted w (snd (submit w))) <> [] <->
  Spec.blank (name (view w)) = false /\
  starts_with_digit (quantity (view w)) = true.
Proof.
  pose proof (rejected_input_iff (name (view w)) (quantity (view w))) as Hrej.
  destruct (submit_cases w) as [[Hr ->] | (x & Hn & Hq & Hx & ->)].
  - emit. split; [congruence|]. intros Hacc. exfalso. now apply Hrej.
  - assert (Hacc : Spec.blank (name (view w)) = false /\
                   starts_with_digit (quantity (view w)) = true).
    { split.
      - destruct (Spec.blank (name (view w))) eqn:Hb; [|reflexivity].
        apply JSFacts.trim_nil_iff_blank in Hb. contradiction.
      - apply QuantityFacts.parseInt_number_iff. rewrite Hq.
        intros ->. discriminate. }
    split; [intros _; exact Hacc | intros _].
    rewrite (saveOrUpdate_run (view w) x w Hn Hq Hx).
    destruct (Obs.saved_request (view w) x (db w)) as [[[] | err] d1].
    + destruct (fetchItems d1) as [[value | err] d2]; emit; discriminate.
    + emit; discriminate.
Qed.

(** X2: What follows the digits of the quantity is ignored: a quantity text
    made of an integer text, one character that is not a decimal digit and
    anything after it has the same effect as the integer text alone. *)
Theorem saveOrUpdate_ignores_text_after_digits
  (c : State) (w : World Db) (ds rest : JS.jsstring) (k : JS.code_unit) :
  Spec.integer_string ds = true ->
  Spec.is_decimal_digit k = false ->
  quantity c = ds ++ k :: rest ->
  saveOrUpdate c w = saveOrUpdate (with_quantity ds c) w.
Proof.
  intros Hint Hk Hq. unfold saveOrUpdate, with_quantity.
  cbn [name quantity editingId]. rewrite Hq.
  now rewrite (QuantityFacts.parseInt_ignores_the_rest ds rest k Hint Hk).
Qed.

(** X3: White space around the name makes no difference: the form with the
    name trimmed beforehand has the same effect. *)
Theorem saveOrUpdate_ignores_name_padding (c : State) (w : World Db) :
  saveOrUpdate c w = saveOrUpdate (with_name (JS.trim (name c)) c) w.
Proof.
  unfold saveOrUpdate, with_name. cbn [name quantity editingId].
  now rewrite JSFacts.trim_idem.
Qed.

(** *** Traces of whole sessions *)

Lemma perform_trace (g : Gesture) (w : World Db) :
  trace (snd (perform g w)) = trace w ++ emitted w (snd (perform g w)).
Proof. run_gesture g w; rewrite ?app_nil_r; reflexivity. Qed.

Lemma session_trace (gs : list Gesture) :
  forall w : World Db,
    trace (session gs w) = trace w ++ emitted w (session gs w).
Proof.
  induction gs as [|g gs IH]; intros w; cbn [session fold_left].
  - now rewrite emitted_refl, app_nil_r.
  - fold (session gs (snd (perform g w))).
    pose proof (IH (snd (perform g w))) as Hrest.
    rewrite (perform_trace g w), <- app_assoc in Hrest.
    now rewrite (emitted_app w _ _ Hrest).
Qed.

Lemma session_emitted_cons (g : Gesture) (gs : list Gesture) (w : World Db) :
  emitted w (session (g :: gs) w) =
  emitted w (snd (perform g w))
  ++ emitted (snd (perform g w)) (session gs (snd (perform g w))).
Proof.
  cbn [session fold_left]. fold (session gs (snd (perform g w))).
  apply emitted_app.
  rewrite (session_trace gs (snd (perform g w))), (perform_trace g w).
  now rewrite <- app_assoc.
Qed.

Lemma perform_requests_well_formed (g : Gesture) (w : World Db)
  (c : StoreCall) (ok : bool) :
  In (Called c ok) (emitted w (snd (perform g w))) -> well_formed_call c.
Proof.
  destruct c as [| n q | id n q | id]; cbn [well_formed_call]; auto.
  - apply screen_inserts_are_trimmed.
  - apply screen_updates_are_trimmed.
Qed.

(** X4: Whatever the user does, in whatever order and whatever the store
    answers, every insert and every update the screen sends carries a
    name equal to its own trim and not empty, and a quantity that is not
    NaN. *)
Theorem session_requests_are_well_formed
  (gs : list Gesture) (w : World Db) (c : StoreCall) (ok : bool) :
  In (Called c ok) (emitted w (session gs w)) -> well_formed_call c.
Proof.
  revert w. induction gs as [|g gs IH]; intros w.
  - cbn [session fold_left]. rewrite emitted_refl. intros [].
  - rewrite session_emitted_cons. intros Hin.
    apply in_app_or in Hin as [Hin | Hin].
    + exact (perform_requests_well_formed g w c ok Hin).
    + exact (IH _ Hin).
Qed.

(** C8: every call the controller makes to the store's insert operation
    passes a name that is pre-trimmed (equal to its own trim) and not
    empty.  The calls the controller makes are those its controls start:
    in any sequence of gestures on the screen, from any state and whatever
    the store answers, an insert that is sent (whether it then succeeds or
    fails) carries such a name.  ([saveItem], which would pass the name as
    typed, is bound to no control and is never called.) *)
Theorem every_insert_passes_a_trimmed_name
  (gs : list Gesture) (w : World Db)
  (n : JS.jsstring) (q : JS.number) (ok : bool) :
  In (Called (CallInsert n q) ok) (emitted w (session gs w)) ->
  Spec.pre_trimmed n /\ n <> [].
Proof.
  revert w. induction gs as [|g gs IH]; intros w.
  - cbn [session fold_left]. rewrite emitted_refl. intros [].
  - rewrite session_emitted_cons. intros Hin.
    apply in_app_or in Hin as [Hin | Hin].
    + destruct (screen_inserts_are_trimmed g w n q ok Hin) as (Ht & Hne & _).
      split; assumption.
    + exact (IH _ Hin).
Qed.

(** X5: A gesture sends the store nothing, or one fetch (opening the screen),
    or one mutation; the mutation is followed by one fetch exactly when it
    succeeded.  Never two mutations, never a refresh after a failed one,
    never a successful one without a refresh. *)
Theorem gesture_sends_one_mutation_then_refresh (g : Gesture) (w : World Db) :
  let es := emitted w (snd (perform g w)) in
  store_calls es = [] \/
  (g = Mount /\ store_calls es = [CallFetch]) \/
  (exists m, is_mutation m = true /\
     ((store_calls es = [m] /\ In (Called m false) es) \/
      (store_calls es = [m; CallFetch] /\ In (Called m true) es))).
Proof.
  cbv zeta. run_gesture g w;
    try (left; reflexivity);
    try (right; left; split; reflexivity).
  all: right; right;
    first [ exists (Obs.saved_call (view w) q); split;
            [apply saved_call_is_mutation|]
          | eexists (CallDelete _); split; [reflexivity|] ];
    first [ left; split; [reflexivity | left; reflexivity]
          | right; split; [reflexivity | left; reflexivity] ].
Qed.

(** X6: The list on screen is never patched locally: a gesture leaves [items]
    as it was unless a fetch succeeded during it. *)
Theorem items_change_only_by_fetch (g : Gesture) (w : World Db) :
  In (Called CallFetch true) (emitted w (snd (perform g w))) \/
  items (view (snd (perform g w))) = items (view w).
Proof.
  run_gesture g w;
    try (right; reflexivity);
    try (left; find_in).
  all: right; destruct (Obs.editing (view w) id); reflexivity.
Qed.


End ControllerConduct.

(* ================================================================== *)
(** ** Submitting twice, [saveItem], [loadItems], [startEdit] *)
(* ================================================================== *)

Section HandlersComposed.

Context {Db : Type} {store : ItemStore Db}.

Import App Session.

(** X8: After a [submit()] whose insert or update succeeded the form is empty,
    so pressing the button again at once does nothing: no second request,
    no change. *)
Theorem second_submit_does_nothing (w : World Db) :
  Obs.mutation_settled true (emitted w (snd (submit w))) ->
  submit (snd (submit w)) = (Resolved tt, snd (submit w)).
Proof.
  destruct (submit_cases w) as [[Hr ->] | (x & Hn & Hq & Hx & ->)].
  - emit. intros H; settle.
  - rewrite (saveOrUpdate_run (view w) x w Hn Hq Hx).
    destruct (Obs.saved_request (view w) x (db w)) as [[[] | err] d1].
    + destruct (fetchItems d1) as [[value | err] d2]; intros _;
        apply saveOrUpdate_rejected; left; reflexivity.
    + emit. intros H; settle.
Qed.

(** X9: After a [submit()] whose insert or update failed the form is as it
    was, so pressing the button again sends the very same request. *)
Theorem failed_submit_is_sent_again (w : World Db) :
  Obs.mutation_settled false (emitted w (snd (submit w))) ->
  exists m rest ok rest',
    emitted w (snd (submit w)) = Called m false :: rest /\
    emitted (snd (submit w)) (snd (submit (snd (submit w))))
      = Called m ok :: rest'.
Proof.
  destruct (submit_cases w) as [[Hr ->] | (x & Hn & Hq & Hx & Hsub)].
  - emit. intros H; settle.
  - rewrite Hsub, (saveOrUpdate_run (view w) x w Hn Hq Hx).
    destruct (Obs.saved_request (view w) x (db w)) as [[[] | err] d1] eqn:Hreq.
    + destruct (fetchItems d1) as [[value | err'] d2]; emit;
        intros H; settle;
        match goal with
        | H : is_mutation CallFetch = true |- _ => discriminate H
        end.
    + intros _.
      set (w1 := {| db := d1; view := view w;
                    trace := trace w ++
                      [Called (Obs.saved_call (view w) x) false;
                       ConsoleLog [Text "Failed to save/update item"; Thrown err]] |}).
      exists (Obs.saved_call (view w) x). cbn [snd].
      unfold submit at 1.
      change (view w1) with (view w).
      rewrite (saveOrUpdate_run (view w) x w1 Hn Hq Hx).
      destruct (Obs.saved_request (view w) x (db w1)) as [[[] | err2] d2].
      * destruct (fetchItems d2) as [[value | err3] d3];
          do 3 eexists; split;
          [ apply emitted_app; reflexivity
          | apply emitted_app; reflexivity
          | apply emitted_app; reflexivity
          | apply emitted_app; reflexivity ].
      * do 3 eexists; split; apply emitted_app; reflexivity.
Qed.

(** [saveItem] on either outcome of its insert and of the fetch. *)
Lemma saveItem_run (c : State) (x : JS.number) (w : World Db) :
  JS.trim (name c) <> [] ->
  JS.parseInt (quantity c) 10 = x ->
  JS.Number_isNaN x = false ->
  saveItem c w =
  match insertItem (db w) (name c) x with
  | (Resolved _, d1) =>
      match fetchItems d1 with
      | (Resolved value, d2) =>
          (Resolved tt,
           {| db := d2;
              view := {| name := []; quantity := [];
                         editingId := editingId (view w); items := value |};
              trace := trace w ++ [Called (CallInsert (name c) x) true;
                                   Called CallFetch true] |})
      | (Rejected err, d2) =>
          (Resolved tt,
           {| db := d2;
              view := {| name := []; quantity := [];
                         editingId := editingId (view w);
                         items := items (view w) |};
              trace := trace w ++ [Called (CallInsert (name c) x) true;
                                   Called CallFetch false;
                                   ConsoleLog [Text "Failed to fetch items";
                                               Thrown err]] |})
      end
  | (Rejected err, d1) =>
      (Resolved tt,
       {| db := d1; view := view w;
          trace := trace w ++ [Called (CallInsert (name c) x) false;
                               ConsoleLog [Text "Failed to save item"];
                               ConsoleLog [Thrown err]] |})
  end.
Proof.
  intros Hn Hq Hx. unfold saveItem. rewrite Hq, Hx.
  destruct (JS.trim (name c)) as [|a t] eqn:Ht; [congruence|].
  cbn [JS.truthy negb].
  unfold try_catch, bind, console_log, setName, setQuantity, set_view.
  unfold await at 1.
  destruct (insertItem (db w) (name c) x) as [[[] | err] d1]; cbn.
  - rewrite loadItems_run; cbn.
    destruct (fetchItems d1) as [[value | err] d2]; cbn;
      now rewrite <- app_assoc.
  - now rewrite <- !app_assoc.
Qed.

Lemma saveItem_rejected (c : State) (w : World Db) :
  Spec.rejected_input (name c) (quantity c) ->
  saveItem c w = (Resolved tt, w).
Proof.
  unfold saveItem, ret; intros [Hn | Hq].
  - rewrite Hn; reflexivity.
  - rewrite Hq; cbn. destruct (JS.truthy (JS.trim (name c))); reflexivity.
Qed.

Lemma form_cases (c : State) :
  Spec.rejected_input (name c) (quantity c) \/
  (JS.trim (name c) <> [] /\
   JS.Number_isNaN (JS.parseInt (quantity c) 10) = false).
Proof.
  destruct (JS.trim (name c)) as [|a t] eqn:Hn; [left; now left|].
  destruct (JS.parseInt (quantity c) 10) eqn:Hq;
    [left; now right | right | right]; split; (discriminate || reflexivity).
Qed.

(** X10: [saveItem] applies the same two guards as [saveOrUpdate], always
    settles normally, only ever asks the store to insert (with the name
    exactly as typed) and to fetch, and never changes [editingId]. *)
Theorem saveItem_only_inserts (c : State) (w : World Db) :
  let w' := snd (saveItem c w) in
  fst (saveItem c w) = Resolved tt /\
  (Spec.rejected_input (name c) (quantity c) -> w' = w) /\
  (forall call ok, In (Called call ok) (emitted w w') ->
     call = CallFetch \/
     call = CallInsert (name c) (JS.parseInt (quantity c) 10)) /\
  editingId (view w') = editingId (view w).
Proof.
  cbv zeta. destruct (form_cases c) as [Hr | [Hn Hx]].
  - rewrite (saveItem_rejected c w Hr). emit.
    split; [reflexivity|]. split; [reflexivity|]. split; [|reflexivity].
    intros call ok [].
  - rewrite (saveItem_run c _ w Hn eq_refl Hx).
    split; [|split; [|split]].
    + destruct (insertItem (db w) (name c) _) as [[[] | err] d1];
        [destruct (fetchItems d1) as [[value | err] d2]|]; reflexivity.
    + intros [Hr | Hr]; [contradiction|]. rewrite Hr in Hx. discriminate.
    + destruct (insertItem (db w) (name c) _) as [[[] | err] d1];
        [destruct (fetchItems d1) as [[value | err] d2]|]; emit;
        intros call ok H; settle; auto.
    + destruct (insertItem (db w) (name c) _) as [[[] | err] d1];
        [destruct (fetchItems d1) as [[value | err] d2]|]; reflexivity.
Qed.

(** X11: On a form in idle-create whose name is already trimmed, [saveItem] and
    [saveOrUpdate] send the store the same requests and leave the same
    store and the same controller state; they differ only in what they
    write to the console. *)
Theorem saveItem_agrees_with_saveOrUpdate (c : State) (w : World Db) :
  Spec.pre_trimmed (name c) ->
  editingId c = None ->
  editingId (view w) = None ->
  db (snd (saveItem c w)) = db (snd (saveOrUpdate c w)) /\
  view (snd (saveItem c w)) = view (snd (saveOrUpdate c w)) /\
  store_calls (emitted w (snd (saveItem c w)))
    = store_calls (emitted w (snd (saveOrUpdate c w))).
Proof.
  intros Htrim Hidle Hview. destruct (form_cases c) as [Hr | [Hn Hx]].
  - rewrite (saveItem_rejected c w Hr), (saveOrUpdate_rejected c w Hr).
    repeat split.
  - rewrite (saveItem_run c _ w Hn eq_refl Hx),
            (saveOrUpdate_run c _ w Hn eq_refl Hx).
    unfold Obs.saved_request, Obs.saved_call. rewrite Hidle, Htrim.
    destruct (insertItem (db w) (name c) _) as [[[] | err] d1];
      [destruct (fetchItems d1) as [[value | err] d2]|]; emit;
      unfold Obs.cleared, Obs.with_items; cbn [items];
      rewrite ?Hview; repeat split.
Qed.

(** X12: Refreshing the list, on mount or after a mutation, always settles
    normally, asks the store for exactly one fetch and nothing else, and
    never touches the form: name, quantity and [editingId] are as before
    whether the fetch succeeds or fails. *)
Theorem loadItems_keeps_the_form (w : World Db) :
  let w' := snd (loadItems w) in
  fst (loadItems w) = Resolved tt /\
  store_calls (emitted w w') = [CallFetch] /\
  Obs.form (view w') = Obs.form (view w).
Proof.
  cbv zeta. rewrite (loadItems_run w).
  destruct (fetchItems (db w)) as [[value | err] d]; emit; repeat split.
Qed.

Lemma form_only_session (gs : list Gesture) :
  forall w : World Db,
    forallb form_only gs = true ->
    db (session gs w) = db w /\
    items (view (session gs w)) = items (view w) /\
    trace (session gs w) = trace w.
Proof.
  induction gs as [|g gs IH]; intros w Hall; cbn [session fold_left].
  - repeat split.
  - fold (session gs (snd (perform g w))).
    cbn [forallb] in Hall. apply andb_true_iff in Hall as [Hg Hgs].
    destruct (IH (snd (perform g w)) Hgs) as (Hdb & Hitems & Htrace).
    rewrite Hdb, Hitems, Htrace.
    destruct g; try discriminate; repeat split.
Qed.

(** X13: Typing and tapping edit icons never reach the store, the list or the
    console, and [startEdit] forgets all of it: after any such gestures,
    starting to edit an item leaves exactly the world that starting to
    edit it straight away would have left. *)
Theorem startEdit_forgets_the_form
  (gs : list Gesture) (item : Item) (w : World Db) :
  forallb form_only gs = true ->
  snd (startEdit item (session gs w)) = snd (startEdit item w) /\
  emitted w (session gs w) = [].
Proof.
  intros Hall.
  destruct (form_only_session gs w Hall) as (Hdb & Hitems & Htrace).
  split.
  - unfold startEdit, bind, setEditingId, setName, setQuantity, set_view.
    cbn. now rewrite Hdb, Hitems, Htrace.
  - now apply emitted_same.
Qed.

(** X14: The NaN guard does not stop an infinite quantity: for an integer text
    of 10^309 or more in absolute value (310 significant digits or more,
    beyond every finite double by a factor of five, so that [parseInt]
    overflows however the engine reads the digits) and a name that is not
    blank, [saveOrUpdate] asks the store to insert (or update) with the
    quantity Infinity, of the sign typed. *)
Theorem saveOrUpdate_sends_infinity (c : State) (w : World Db) :
  JS.trim (name c) <> [] ->
  Spec.integer_string (quantity c) = true ->
  (10 ^ 309 <= Z.abs (Spec.integer_value (quantity c)))%Z ->
  exists ok rest,
    emitted w (snd (saveOrUpdate c w)) =
    Called (Obs.saved_call c
              (JS.Infinity (Spec.integer_value (quantity c) <? 0)%Z)) ok
      :: rest.
Proof.
  intros Hn Hint Hbig.
  pose proof (JSFacts.integer_string_parse _ Hint) as Hq.
  assert (Hover : (2 ^ 1024 <= Z.abs (Spec.integer_value (quantity c)))%Z).
  { apply Z.le_trans with (2 := Hbig). vm_compute. discriminate. }
  rewrite (QuantityFacts.F_overflows _ Hover) in Hq.
  rewrite (saveOrUpdate_run c _ w Hn Hq eq_refl).
  destruct (Obs.saved_request c _ (db w)) as [[[] | err] d1].
  - destruct (fetchItems d1) as [[value | err] d2]; emit; eauto.
  - emit; eauto.
Qed.

End HandlersComposed.

(* ================================================================== *)
(** ** The rendered screen *)
(* ================================================================== *)

Section RenderedScreen.

Context {Db : Type} {store : ItemStore Db}.

Import App Screen.

Lemma submit_rejected_text (w : World Db) :
  Spec.rejected_input (name (view w)) (quantity (view w)) ->
  submit w = (Resolved tt, w).
Proof. intros H. unfold submit. now apply saveOrUpdate_rejected. Qed.

(** [String] tells apart the numbers it prints in plain digits. *)
Lemma String_injective (x y : JS.number) :
  Spec.plain_decimal x -> Spec.plain_decimal y ->
  JS.String x = JS.String y -> x = y.
Proof.
  intros Hx Hy Heq.
  rewrite <- (JSFacts.parseInt_String_plain x Hx),
          <- (JSFacts.parseInt_String_plain y Hy).
  now rewrite Heq.
Qed.

Lemma NoDup_map_inj_on {A B} (f : A -> B) (l : list A) :
  (forall a b, In a l -> In b l -> f a = f b -> a = b) ->
  NoDup l -> NoDup (map f l).
Proof.
  induction l as [|a l IH]; intros Hinj Hnd; cbn [map]; [constructor|].
  inversion Hnd as [|? ? Hnotin Hnd']; subst.
  constructor.
  - intros Hin. apply in_map_iff in Hin as (b & Heq & Hb).
    apply Hnotin.
    rewrite (Hinj a b (or_introl eq_refl) (or_intror Hb) (eq_sym Heq)).
    exact Hb.
  - apply IH; [|assumption].
    intros x y Hx Hy. apply Hinj; now right.
Qed.

(** X15: The keys the list gives its rows ([item.id.toString()]) are pairwise
    distinct whenever the ids of the items are, provided each id is printed
    in plain digits (as every safe integer is). *)
Theorem list_keys_are_distinct (c : State) :
  NoDup (map Item.id (items c)) ->
  (forall item, In item (items c) -> Spec.plain_decimal (JS.Num (Item.id item))) ->
  NoDup (list_keys (render c)).
Proof.
  intros Hnd Hplain. cbn [render list_keys].
  rewrite <- (map_map Item.id (fun id => JS.String (JS.Num id))).
  apply NoDup_map_inj_on; [|assumption].
  intros a b Ha Hb Heq.
  apply in_map_iff in Ha as (ia & <- & Hia).
  apply in_map_iff in Hb as (ib & <- & Hib).
  assert (H : JS.Num (Item.id ia) = JS.Num (Item.id ib))
    by (apply String_injective; auto).
  now inversion H.
Qed.

(** X16: The row at position [i] of the list shows the name and the quantity of
    the item at position [i]; tapping its edit icon is [startEdit] of that
    very item, after which the form holds exactly the name and the
    quantity text the row shows and [editingId] is the item's id; tapping
    its delete icon asks about, and on "Delete" deletes, that item's id. *)
Theorem row_controls_act_on_their_item (w : World Db) (i : nat) (item : Item) :
  nth_error (items (view w)) i = Some item ->
  exists row,
    nth_error (list_rows (render (view w))) i = Some row /\
    shown_name row = Item.name item /\
    shown_qty row = JS.js "Qty: " ++ JS.String (Item.quantity item) /\
    tapEdit i w = startEdit item w /\
    (forall answer,
       tapDelete i answer w = deleteAndAnswer (Item.id item) answer w) /\
    name (view (snd (tapEdit i w))) = shown_name row /\
    JS.js "Qty: " ++ quantity (view (snd (tapEdit i w))) = shown_qty row /\
    editingId (view (snd (tapEdit i w))) = Some (Item.id item).
Proof.
  intros Hnth.
  pose proof (map_nth_error
                (fun item => ItemRow (Item.name item) (Item.quantity item)
                               (startEdit item : Async Db unit)
                               (confirmDelete (view w) (Item.id item)))
                i (items (view w)) Hnth) as Hrow.
  eexists. split; [exact Hrow|].
  unfold tapEdit, tapDelete. cbn [render list_rows]. rewrite Hrow.
  cbn [ItemRow shown_name shown_qty edit_onPress delete_onPress].
  repeat split.
Qed.

(** X17: The button says what it does: whatever pressing it sends the store,
    an insert is sent only under the title "Save Item", an update only
    under "Update Item" and then for the item being edited; it never
    sends a delete. *)
Theorem button_title_tells_what_it_does
  (w : World Db) (call : StoreCall) (ok : bool) :
  In (Called call ok) (emitted w (snd (tapButton w))) ->
  match call with
  | CallFetch => True
  | CallInsert _ _ => button_title (render (view w)) = "Save Item"%string
  | CallUpdate id _ _ =>
      button_title (render (view w)) = "Update Item"%string /\
      editingId (view w) = Some id
  | CallDelete _ => False
  end.
Proof.
  change (tapButton w) with (submit w). cbn [render button_title].
  destruct (submit_cases w) as [[Hr ->] | (x & Hn & Hq & Hx & ->)].
  - emit. intros [].
  - rewrite (saveOrUpdate_run (view w) x w Hn Hq Hx).
    destruct (Obs.saved_request (view w) x (db w)) as [[[] | err] d1];
      [destruct (fetchItems d1) as [[value | err] d2]|]; emit;
      intros H; settle; try exact I;
      unfold Obs.saved_call; destruct (editingId (view w)); auto.
Qed.

(** X18: An item whose quantity is NaN or infinite cannot be saved again from
    the form as loaded: after [startEdit] of it, [submit()] does nothing
    (the quantity field reads "NaN" or "Infinity", which [parseInt] turns
    into NaN) and the controller stays in edit mode on that item. *)
Theorem non_finite_quantity_cannot_be_resaved (item : Item) (w : World Db) :
  Session.non_finite (Item.quantity item) ->
  submit (snd (startEdit item w)) = (Resolved tt, snd (startEdit item w)) /\
  editingId (view (snd (startEdit item w))) = Some (Item.id item).
Proof.
  intros Hnf. split; [|reflexivity].
  apply submit_rejected_text. right.
  destruct item as [id nm [| [|] |z]]; cbn in Hnf; try contradiction;
    reflexivity.
Qed.

End RenderedScreen.

(* ================================================================== *)
(** ** The added properties on concrete inputs *)
(* ================================================================== *)

Section MoreInstances.

Import App SpecStore Session Screen.

Lemma saveOrUpdate_ignores_text_after_digits_witness :
  Spec.integer_string (JS.js "7") = true /\
  Spec.is_decimal_digit 0x20%N = false /\
  quantity (view apples_7_kg) = JS.js "7" ++ 0x20%N :: JS.js "kg" /\
  rows (db (snd (saveOrUpdate (view apples_7_kg) apples_7_kg)))
    = [Item.mk 1 (JS.js "Apples") (JS.Num 7)].
Proof.
  split; [reflexivity|]. split; [reflexivity|]. split; [reflexivity|].
  rewrite (saveOrUpdate_ignores_text_after_digits
             (view apples_7_kg) apples_7_kg (JS.js "7") (JS.js "kg") 0x20%N
             eq_refl eq_refl eq_refl).
  reflexivity.
Defined.

Lemma session_requests_are_well_formed_witness :
  In (Called (CallInsert (JS.js "Apples") (JS.Num 5)) true)
     (emitted (world0 [] []) (session fill_and_save (world0 [] []))) /\
  well_formed_call (CallInsert (JS.js "Apples") (JS.Num 5)).
Proof.
  assert (Hin : In (Called (CallInsert (JS.js "Apples") (JS.Num 5)) true)
                  (emitted (world0 [] []) (session fill_and_save (world0 [] []))))
    by (left; reflexivity).
  split; [exact Hin|].
  exact (session_requests_are_well_formed fill_and_save (world0 [] []) _ _ Hin).
Defined.

Lemma every_insert_passes_a_trimmed_name_witness :
  In (Called (CallInsert (JS.js "Apples") (JS.Num 5)) true)
     (emitted (world0 [] []) (session fill_and_save (world0 [] []))) /\
  Spec.pre_trimmed (JS.js "Apples") /\ JS.js "Apples" <> [].
Proof.
  assert (Hin : In (Called (CallInsert (JS.js "Apples") (JS.Num 5)) true)
                  (emitted (world0 [] []) (session fill_and_save (world0 [] []))))
    by (left; reflexivity).
  split; [exact Hin|].
  exact (every_insert_passes_a_trimmed_name
           fill_and_save (world0 [] []) _ _ _ Hin).
Defined.

Lemma second_submit_does_nothing_witness :
  Obs.mutation_settled true (emitted apples_5 (snd (submit apples_5))) /\
  rows (db (snd (submit (snd (submit apples_5))))) = [apple_item].
Proof.
  assert (Hm : Obs.mutation_settled true
                 (emitted apples_5 (snd (submit apples_5)))).
  { exists (CallInsert (JS.js "Apples") (JS.Num 5)).
    split; [reflexivity | left; reflexivity]. }
  split; [exact Hm|].
  rewrite (second_submit_does_nothing apples_5 Hm). reflexivity.
Defined.

Lemma failed_submit_is_sent_again_witness :
  Obs.mutation_settled false
    (emitted apples_5_insert_fails (snd (submit apples_5_insert_fails))) /\
  exists m rest ok rest',
    emitted apples_5_insert_fails (snd (submit apples_5_insert_fails))
      = Called m false :: rest /\
    emitted (snd (submit apples_5_insert_fails))
            (snd (submit (snd (submit apples_5_insert_fails))))
      = Called m ok :: rest'.
Proof.
  assert (Hm : Obs.mutation_settled false
                 (emitted apples_5_insert_fails
                    (snd (submit apples_5_insert_fails)))).
  { exists (CallInsert (JS.js "Apples") (JS.Num 5)).
    split; [reflexivity | left; reflexivity]. }
  split; [exact Hm|].
  exact (failed_submit_is_sent_again apples_5_insert_fails Hm).
Defined.

Lemma saveItem_agrees_with_saveOrUpdate_witness :
  Spec.pre_trimmed (name (view apples_5)) /\
  editingId (view apples_5) = None /\
  view (snd (saveItem (view apples_5) apples_5))
    = view (snd (saveOrUpdate (view apples_5) apples_5)).
Proof.
  split; [reflexivity|]. split; [reflexivity|].
  exact (proj1 (proj2 (saveItem_agrees_with_saveOrUpdate
                         (view apples_5) apples_5 eq_refl eq_refl eq_refl))).
Defined.

Lemma startEdit_forgets_the_form_witness :
  forallb form_only fiddle = true /\
  snd (startEdit apple_item (session fiddle stocked))
    = snd (startEdit apple_item stocked).
Proof.
  split; [reflexivity|].
  exact (proj1 (startEdit_forgets_the_form fiddle apple_item stocked eq_refl)).
Defined.

Lemma saveOrUpdate_sends_infinity_witness :
  JS.trim (name (view apples_googol_cubed)) <> [] /\
  Spec.integer_string (quantity (view apples_googol_cubed)) = true /\
  rows (db (snd (saveOrUpdate (view apples_googol_cubed) apples_googol_cubed)))
    = [Item.mk 1 (JS.js "Apples") (JS.Infinity false)] /\
  exists ok rest,
    emitted apples_googol_cubed
      (snd (saveOrUpdate (view apples_googol_cubed) apples_googol_cubed))
    = Called (CallInsert (JS.js "Apples") (JS.Infinity false)) ok :: rest.
Proof.
  assert (Hn : JS.trim (name (view apples_googol_cubed)) <> [])
    by (vm_compute; discriminate).
  assert (Hbig : (10 ^ 309
                  <= Z.abs (Spec.integer_value
                              (quantity (view apples_googol_cubed))))%Z)
    by (vm_compute; discriminate).
  split; [exact Hn|]. split; [vm_compute; reflexivity|].
  split; [vm_compute; reflexivity|].
  exact (saveOrUpdate_sends_infinity (view apples_googol_cubed)
           apples_googol_cubed Hn eq_refl Hbig).
Defined.

Lemma list_keys_are_distinct_witness :
  NoDup (map Item.id (items (view stocked))) /\
  list_keys (render (store := SpecStore.store) (view stocked))
    = [JS.js "1"; JS.js "2"] /\
  NoDup (list_keys (render (store := SpecStore.store) (view stocked))).
Proof.
  assert (Hnd : NoDup (map Item.id (items (view stocked)))).
  { repeat constructor; cbn; intuition discriminate. }
  assert (Hplain : forall item, In item (items (view stocked)) ->
                     Spec.plain_decimal (JS.Num (Item.id item))).
  { intros item [<- | [<- | []]]; split; reflexivity. }
  split; [exact Hnd|]. split; [reflexivity|].
  exact (list_keys_are_distinct (view stocked) Hnd Hplain).
Defined.

Lemma row_controls_act_on_their_item_witness :
  nth_error (items (view stocked)) 1 = Some pear_item /\
  Obs.form (view (snd (tapEdit 1 stocked)))
    = (JS.js "Pears", JS.js "12", Some 2%Z) /\
  exists row,
    nth_error (list_rows (render (view stocked))) 1 = Some row /\
    shown_qty row = JS.js "Qty: 12".
Proof.
  split; [reflexivity|]. split; [reflexivity|].
  destruct (row_controls_act_on_their_item stocked 1 pear_item eq_refl)
    as (row & Hrow & _ & Hqty & _).
  exists row. split; [exact Hrow | exact Hqty].
Defined.

Lemma button_title_tells_what_it_does_witness :
  In (Called (CallUpdate 1 (JS.js "Apples") (JS.Num 5)) true)
     (emitted editing_apples (snd (tapButton editing_apples))) /\
  button_title (render (store := SpecStore.store) (view editing_apples))
    = "Update Item"%string.
Proof.
  assert (Hin : In (Called (CallUpdate 1 (JS.js "Apples") (JS.Num 5)) true)
                  (emitted editing_apples (snd (tapButton editing_apples))))
    by (left; reflexivity).
  split; [exact Hin|].
  exact (proj1 (button_title_tells_what_it_does editing_apples _ _ Hin)).
Defined.

Lemma non_finite_quantity_cannot_be_resaved_witness :
  Session.non_finite (Item.quantity endless_item) /\
  quantity (view (snd (startEdit endless_item stocked))) = JS.js "Infinity" /\
  submit (snd (startEdit endless_item stocked))
    = (Resolved tt, snd (startEdit endless_item stocked)).
Proof.
  split; [exact I|]. split; [reflexivity|].
  exact (proj1 (non_finite_quantity_cannot_be_resaved endless_item stocked I)).
Defined.

End MoreInstances.
